(** * Big Drip Kicks: the sale transaction engine

    A shallow embedding of the point-of-sale path of the repository:

    - the cart handlers, the cart calculator, [processSale] and
      [showReceiptPreview] of [src/components/Sales.tsx];
    - [fetchAlerts], [acknowledgeAlert] and [unacknowledgedCount] of the
      [useLowStockAlerts] hook;
    - the PL/pgSQL trigger functions of the migrations
      ([set_sale_number], [generate_sale_number],
      [validate_stock_before_sale], [update_product_stock],
      [check_low_stock], [create_audit_log], [audit_trigger_function],
      [calculate_sale_totals]) and the statements that fire them.

    Conventions of the embedding.

    - JavaScript numbers and SQL [numeric(10,2)] columns are exact
      rationals ([Q]): neither floating-point error nor the rounding of a
      stored amount to two decimals is modelled.  SQL [integer] columns
      are [Z].
    - [uuid] values are natural numbers; [gen_random_uuid()] is a counter
      of the database, so that a generated id is fresh for every table.
    - A table with a primary key that the code looks up by key is a finite
      map ([products]); the other tables are lists in insertion order.
      Columns that the sale path neither reads nor writes are left out.
    - A statement either succeeds with a new database or raises, in which
      case PostgreSQL rolls the statement back: the database is the one
      before the statement, except for the sequence, whose [nextval] is
      never rolled back.  Statements run one at a time.
    - Row-level security is not modelled: the session passes every policy,
      as that of an admin or staff profile does.
    - Several migrations define a function of the same name with
      [CREATE OR REPLACE]; the body in force is that of the latest
      migration (the quick-sale trigger migration).  The triggers are the
      ones that migration creates, so that each function fires once per
      row event; triggers that earlier migrations create on the same
      functions under other names are not added on top.  A body of the
      first migration that differs is kept under its own name
      ([generate_sale_number]) or a [_v1] name ([check_low_stock_v1]). *)

From Stdlib Require Import ZArith NArith QArith Lia Lqa String Ascii List Bool
  Sorted.
From stdpp Require Import base option list gmap.

Local Open Scope Z_scope.

(** ** Numbers *)

Definition uuid := N.
Bind Scope N_scope with uuid.

(** JavaScript [a < b] and [a > b] on numbers. *)
Definition Qltb (a b : Q) : bool := negb (Qle_bool b a).
Definition Qgtb (a b : Q) : bool := Qltb b a.

(** ** PostgreSQL built-ins used by the migrations *)

Module Pg.

Definition digit_char (d : N) : ascii := ascii_of_N (48 + d).

(** Decimal digits of [n], most significant first; [fuel] bounds the
    number of digits. *)
Fixpoint digits_fuel (fuel : nat) (n : N) : list ascii :=
  match fuel with
  | O => []
  | S f =>
      if (n <? 10)%N then [digit_char n]
      else digits_fuel f (n / 10)%N ++ [digit_char (n mod 10)%N]
  end.

(** [n::text] for a non-negative integer: a number has at most as many
    decimal digits as binary ones. *)
Definition text_digits (n : N) : list ascii :=
  digits_fuel (S (N.to_nat (N.log2 n))) n.

Definition text (n : N) : string := string_of_list_ascii (text_digits n).

(** [LPAD(s, len, fill)]: prepend [fill] (repeated) up to [len]
    characters; a string longer than [len] is truncated on the right. *)
Definition lpad_list (s : list ascii) (len : nat) (fill : list ascii)
  : list ascii :=
  if (len <=? length s)%nat then take len s
  else take (len - length s) (concat (replicate len fill)) ++ s.

Definition lpad (s : string) (len : nat) (fill : string) : string :=
  string_of_list_ascii
    (lpad_list (list_ascii_of_string s) len (list_ascii_of_string fill)).

(** [SUBSTRING(s FROM k)], positions counted from 1. *)
Definition substring_from (s : string) (k : nat) : string :=
  string_of_list_ascii (drop (k - 1) (list_ascii_of_string s)).

Definition digit_value (c : ascii) : option N :=
  let k := N_of_ascii c in
  if ((48 <=? k) && (k <=? 57))%N then Some (k - 48)%N else None.

Fixpoint parse_digits (acc : N) (s : list ascii) : option N :=
  match s with
  | [] => Some acc
  | c :: s' =>
      match digit_value c with
      | Some d => parse_digits (10 * acc + d)%N s'
      | None => None
      end
  end.

(** [CAST(s AS integer)] on an unsigned decimal; anything else raises
    (here: [None]). *)
Definition cast_integer (s : string) : option N :=
  match list_ascii_of_string s with
  | [] => None
  | l => parse_digits 0 l
  end.

(** [s LIKE 'BD-%'] *)
Definition like_BD (s : string) : bool := String.prefix "BD-" s.

End Pg.

(** ** The schema *)

Inductive discount_type_t := flat | percentage.

Inductive payment_method_t := cash | card | orange_money | mtn_money | bank.

Definition timestamptz := N.
Bind Scope N_scope with timestamptz.

Module products.
Record row := mk {
  id : uuid;
  name : string;
  selling_price : Q;
  stock_quantity : Z;
  low_stock_threshold : Z;
  is_active : bool
}.

Definition set_stock_quantity (v : Z) (r : row) : row :=
  mk (id r) (name r) (selling_price r) v (low_stock_threshold r)
     (is_active r).
End products.

Module sales.
(** The tuple of an [INSERT]: [sale_number] and [cashier_id] are
    [NOT NULL] columns that the client may leave out. *)
Record tuple := mk_tuple {
  t_sale_number : option string;
  t_customer_id : option uuid;
  t_cashier_id : option uuid;
  t_subtotal : Q;
  t_discount_type : option discount_type_t;
  t_discount_value : option Q;
  t_discount_amount : option Q;
  t_total_amount : Q;
  t_payment_method : payment_method_t
}.

Record row := mk {
  id : uuid;
  sale_number : string;
  customer_id : option uuid;
  cashier_id : uuid;
  subtotal : Q;
  discount_type : option discount_type_t;
  discount_value : option Q;
  discount_amount : option Q;
  total_amount : Q;
  payment_method : payment_method_t
}.

Definition set_sale_number (n : option string) (t : tuple) : tuple :=
  mk_tuple n (t_customer_id t) (t_cashier_id t) (t_subtotal t)
           (t_discount_type t) (t_discount_value t) (t_discount_amount t)
           (t_total_amount t) (t_payment_method t).

Definition set_totals (sub tot : Q) (r : row) : row :=
  mk (id r) (sale_number r) (customer_id r) (cashier_id r) sub
     (discount_type r) (discount_value r) (discount_amount r) tot
     (payment_method r).
End sales.

Module sale_items.
Record tuple := mk_tuple {
  t_sale_id : uuid;
  t_product_id : uuid;
  t_quantity : Z;
  t_unit_price : Q;
  t_total_price : Q
}.

Record row := mk {
  id : uuid;
  sale_id : uuid;
  product_id : uuid;
  quantity : Z;
  unit_price : Q;
  total_price : Q
}.
End sale_items.

Module low_stock_alerts.
Record row := mk {
  id : uuid;
  product_id : uuid;
  current_stock : Z;
  threshold : Z;
  is_acknowledged : bool;
  acknowledged_by : option uuid;
  acknowledged_at : option timestamptz
}.
End low_stock_alerts.

Module audit_logs.
Inductive tg_op := INSERT | UPDATE | DELETE.

Inductive tg_table_name := t_products | t_sales | t_sale_items.

(** [to_jsonb(row)] *)
Inductive jsonb :=
| of_product (r : products.row)
| of_sale (r : sales.row)
| of_sale_item (r : sale_items.row).

(** The generated [id] and [created_at] of an audit row are read by
    nothing in the sale path and are left out. *)
Record row := mk {
  user_id : option uuid;
  action : tg_op;
  table_name : tg_table_name;
  record_id : uuid;
  old_values : option jsonb;
  new_values : option jsonb
}.
End audit_logs.

Record db := mk_db {
  products : gmap uuid products.row;
  sales : list sales.row;
  sale_items : list sale_items.row;
  low_stock_alerts : list low_stock_alerts.row;
  audit_logs : list audit_logs.row;
  sale_number_seq : N;
  uuid_gen : N
}.

Definition with_products (v : gmap uuid products.row) (d : db) : db :=
  mk_db v (sales d) (sale_items d) (low_stock_alerts d) (audit_logs d)
        (sale_number_seq d) (uuid_gen d).

Definition with_sales (v : list sales.row) (d : db) : db :=
  mk_db (products d) v (sale_items d) (low_stock_alerts d) (audit_logs d)
        (sale_number_seq d) (uuid_gen d).

Definition with_sale_items (v : list sale_items.row) (d : db) : db :=
  mk_db (products d) (sales d) v (low_stock_alerts d) (audit_logs d)
        (sale_number_seq d) (uuid_gen d).

Definition with_low_stock_alerts (v : list low_stock_alerts.row) (d : db)
  : db :=
  mk_db (products d) (sales d) (sale_items d) v (audit_logs d)
        (sale_number_seq d) (uuid_gen d).

Definition with_audit_logs (v : list audit_logs.row) (d : db) : db :=
  mk_db (products d) (sales d) (sale_items d) (low_stock_alerts d) v
        (sale_number_seq d) (uuid_gen d).

Definition with_sale_number_seq (v : N) (d : db) : db :=
  mk_db (products d) (sales d) (sale_items d) (low_stock_alerts d)
        (audit_logs d) v (uuid_gen d).

Definition with_uuid_gen (v : N) (d : db) : db :=
  mk_db (products d) (sales d) (sale_items d) (low_stock_alerts d)
        (audit_logs d) (sale_number_seq d) v.

(** [gen_random_uuid()] *)
Definition gen_random_uuid (d : db) : uuid * db :=
  (uuid_gen d, with_uuid_gen (uuid_gen d + 1)%N d).

(** [nextval('sale_number_seq')]; the sequence starts at 1 and
    [sale_number_seq] holds the last value handed out. *)
Definition nextval (d : db) : N * db :=
  let v := (sale_number_seq d + 1)%N in (v, with_sale_number_seq v d).

Inductive pg_error :=
| insufficient_stock (product_id : uuid) (requested available : Z)
| not_null_violation
| unique_violation
| foreign_key_violation
| no_rows.

(** What a statement leaves behind. *)
Inductive outcome (A : Type) :=
| ok (v : A) (d : db)
| raised (e : pg_error) (d : db).
Arguments ok {A} v d.
Arguments raised {A} e d.

(** Rolling a failed statement back to [d0]: only the sequence keeps the
    values it handed out. *)
Definition rollback (d0 d : db) : db :=
  with_sale_number_seq (sale_number_seq d) d0.

(** ** Trigger functions

    The bodies are those of the quick-sale trigger migration, the last one
    to [CREATE OR REPLACE] them. *)

(** What fired a row trigger: [TG_OP] with [OLD] and [NEW]. *)
Inductive tg_event :=
| inserted (NEW : audit_logs.jsonb)
| updated (OLD NEW : audit_logs.jsonb)
| deleted (OLD : audit_logs.jsonb).

Definition jsonb_id (j : audit_logs.jsonb) : uuid :=
  match j with
  | audit_logs.of_product r => products.id r
  | audit_logs.of_sale r => sales.id r
  | audit_logs.of_sale_item r => sale_items.id r
  end.

(** [create_audit_log()]; [auth_uid] is [auth.uid()]. *)
Definition create_audit_log (auth_uid : option uuid)
    (TG_TABLE_NAME : audit_logs.tg_table_name) (ev : tg_event) (d : db) : db :=
  let entry :=
    match ev with
    | inserted NEW =>
        audit_logs.mk auth_uid audit_logs.INSERT TG_TABLE_NAME (jsonb_id NEW)
                      None (Some NEW)
    | updated OLD NEW =>
        audit_logs.mk auth_uid audit_logs.UPDATE TG_TABLE_NAME (jsonb_id NEW)
                      (Some OLD) (Some NEW)
    | deleted OLD =>
        audit_logs.mk auth_uid audit_logs.DELETE TG_TABLE_NAME (jsonb_id OLD)
                      (Some OLD) None
    end in
  with_audit_logs (audit_logs d ++ [entry]) d.

(** ['BD-' || LPAD(n::text, 6, '0')] *)
Definition format_sale_number (n : N) : string :=
  ("BD-" ++ Pg.lpad (Pg.text n) 6 "0")%string.

(** [set_sale_number()], [BEFORE INSERT ON sales]. *)
Definition set_sale_number (NEW : sales.tuple) (d : db) : sales.tuple * db :=
  let generate :=
    let (n, d') := nextval d in
    (sales.set_sale_number (Some (format_sale_number n)) NEW, d') in
  match sales.t_sale_number NEW with
  | None => generate
  | Some s => if String.eqb s "" then generate else (NEW, d)
  end.

(** [check_low_stock()], [AFTER INSERT OR UPDATE ON products].  The
    [ON CONFLICT (product_id)] clause presupposes one alert per product:
    a row of that product is refreshed, otherwise one is inserted. *)
Definition check_low_stock (NEW : products.row) (d : db) : db :=
  if products.stock_quantity NEW <=? products.low_stock_threshold NEW then
    let conflict (a : low_stock_alerts.row) :=
      N.eqb (low_stock_alerts.product_id a) (products.id NEW) in
    if existsb conflict (low_stock_alerts d) then
      with_low_stock_alerts
        (map (fun a =>
                if conflict a then
                  low_stock_alerts.mk
                    (low_stock_alerts.id a) (low_stock_alerts.product_id a)
                    (products.stock_quantity NEW)
                    (low_stock_alerts.threshold a)
                    false None None
                else a) (low_stock_alerts d)) d
    else
      let (i, d1) := gen_random_uuid d in
      with_low_stock_alerts
        (low_stock_alerts d1 ++
           [low_stock_alerts.mk i (products.id NEW)
              (products.stock_quantity NEW) (products.low_stock_threshold NEW)
              false None None]) d1
  else d.

(** [UPDATE products SET ... WHERE id = pid], with the row triggers of
    [products] in name order: [audit_products_trigger], then
    [check_low_stock_trigger]. *)
Definition update_products (auth_uid : option uuid) (pid : uuid)
    (set : products.row -> products.row) (d : db) : db :=
  match products d !! pid with
  | None => d
  | Some OLD =>
      let NEW := set OLD in
      let d1 := with_products (<[pid := NEW]> (products d)) d in
      let d2 := create_audit_log auth_uid audit_logs.t_products
                  (updated (audit_logs.of_product OLD)
                           (audit_logs.of_product NEW)) d1 in
      check_low_stock NEW d2
  end.

(** [update_product_stock()], [AFTER INSERT ON sale_items]. *)
Definition update_product_stock (auth_uid : option uuid)
    (NEW : sale_items.row) (d : db) : db :=
  update_products auth_uid (sale_items.product_id NEW)
    (fun p => products.set_stock_quantity
                (products.stock_quantity p - sale_items.quantity NEW) p) d.

(** [validate_stock_before_sale()], [BEFORE INSERT ON sale_items]: the
    exception it raises, if any.  With no such product [current_stock] is
    [NULL] and the comparison is not true. *)
Definition validate_stock_before_sale (NEW : sale_items.row) (d : db)
  : option pg_error :=
  match products.stock_quantity <$> products d !! sale_items.product_id NEW with
  | Some current_stock =>
      if current_stock <? sale_items.quantity NEW then
        Some (insufficient_stock (sale_items.product_id NEW)
                                 (sale_items.quantity NEW) current_stock)
      else None
  | None => None
  end.

Definition Qsum (l : list Q) : Q := fold_right Qplus 0%Q l.

(** [UPDATE sales SET subtotal = .., total_amount = .. WHERE id = i], with
    [audit_sales_trigger] fired for every updated row. *)
Definition update_sales_totals (auth_uid : option uuid) (i : uuid)
    (set : sales.row -> sales.row) (d : db) : db :=
  let hit (r : sales.row) := N.eqb (sales.id r) i in
  let d1 := with_sales (map (fun r => if hit r then set r else r) (sales d)) d in
  fold_left
    (fun acc OLD =>
       if hit OLD then
         create_audit_log auth_uid audit_logs.t_sales
           (updated (audit_logs.of_sale OLD) (audit_logs.of_sale (set OLD))) acc
       else acc)
    (sales d) d1.

(** [calculate_sale_totals()], [AFTER INSERT OR UPDATE OR DELETE ON
    sale_items].  As in the source, both the sum and the update select by
    [NEW.id], the id of the sale item. *)
Definition calculate_sale_totals (auth_uid : option uuid)
    (NEW : sale_items.row) (d : db) : db :=
  let sale_total :=
    Qsum (map sale_items.total_price
            (List.filter (fun it => N.eqb (sale_items.sale_id it)
                                          (sale_items.id NEW))
                         (sale_items d))) in
  update_sales_totals auth_uid (sale_items.id NEW)
    (fun r => sales.set_totals sale_total
                (sale_total - default 0%Q (sales.discount_amount r))%Q r) d.

(** ** Statements *)

(** [INSERT INTO sales ... RETURNING *] of one row: default id,
    [set_sale_number_trigger], the [NOT NULL] and [UNIQUE] constraints, the
    insertion, [audit_sales_trigger]. *)
Definition insert_sale (auth_uid : option uuid) (t : sales.tuple) (d : db)
  : outcome sales.row :=
  let (i, d0) := gen_random_uuid d in
  let (NEW, d1) := set_sale_number t d0 in
  match sales.t_sale_number NEW, sales.t_cashier_id NEW with
  | Some number, Some cashier =>
      if existsb (fun r => String.eqb (sales.sale_number r) number) (sales d1)
      then raised unique_violation (rollback d d1)
      else
        let r := sales.mk i number (sales.t_customer_id NEW) cashier
                   (sales.t_subtotal NEW) (sales.t_discount_type NEW)
                   (sales.t_discount_value NEW) (sales.t_discount_amount NEW)
                   (sales.t_total_amount NEW) (sales.t_payment_method NEW) in
        let d2 := with_sales (sales d1 ++ [r]) d1 in
        ok r (create_audit_log auth_uid audit_logs.t_sales
                (inserted (audit_logs.of_sale r)) d2)
  | _, _ => raised not_null_violation (rollback d d1)
  end.

Definition references_ok (NEW : sale_items.row) (d : db) : bool :=
  existsb (fun r => N.eqb (sales.id r) (sale_items.sale_id NEW)) (sales d)
  && bool_decide (is_Some (products d !! sale_items.product_id NEW)).

(** The rows of a multi-row [INSERT INTO sale_items]: each row gets its
    default id, passes [validate_stock_before_sale_trigger] and the foreign
    keys, and is inserted.  The [AFTER] row triggers are queued until all
    the rows are in, so every row is validated against the stock the
    statement started with. *)
Fixpoint insert_sale_item_rows (ts : list sale_items.tuple) (d : db)
  : pg_error + (list sale_items.row * db) :=
  match ts with
  | [] => inr ([], d)
  | t :: ts' =>
      let (i, d1) := gen_random_uuid d in
      let NEW := sale_items.mk i (sale_items.t_sale_id t)
                   (sale_items.t_product_id t) (sale_items.t_quantity t)
                   (sale_items.t_unit_price t) (sale_items.t_total_price t) in
      match validate_stock_before_sale NEW d1 with
      | Some e => inl e
      | None =>
          if references_ok NEW d1 then
            match insert_sale_item_rows ts'
                    (with_sale_items (sale_items d1 ++ [NEW]) d1) with
            | inl e => inl e
            | inr (rows, d2) => inr (NEW :: rows, d2)
            end
          else inl foreign_key_violation
      end
  end.

(** The [AFTER INSERT] row triggers of [sale_items] for one row, in name
    order: [audit_sale_items_trigger], [calculate_sale_totals_trigger],
    [update_product_stock_trigger]. *)
Definition after_insert_sale_item (auth_uid : option uuid)
    (NEW : sale_items.row) (d : db) : db :=
  let d1 := create_audit_log auth_uid audit_logs.t_sale_items
              (inserted (audit_logs.of_sale_item NEW)) d in
  let d2 := calculate_sale_totals auth_uid NEW d1 in
  update_product_stock auth_uid NEW d2.

(** [INSERT INTO sale_items] of the rows [ts]. *)
Definition insert_sale_items (auth_uid : option uuid)
    (ts : list sale_items.tuple) (d : db) : outcome (list sale_items.row) :=
  match insert_sale_item_rows ts d with
  | inl e => raised e d
  | inr (rows, d1) =>
      ok rows (fold_left (fun acc NEW => after_insert_sale_item auth_uid NEW acc)
                         rows d1)
  end.

(** [UPDATE low_stock_alerts SET is_acknowledged = true,
    acknowledged_at = now WHERE id = alertId] *)
Definition update_alert_acknowledged (alertId : uuid) (now : timestamptz)
    (d : db) : db :=
  with_low_stock_alerts
    (map (fun a =>
            if N.eqb (low_stock_alerts.id a) alertId then
              low_stock_alerts.mk
                (low_stock_alerts.id a) (low_stock_alerts.product_id a)
                (low_stock_alerts.current_stock a)
                (low_stock_alerts.threshold a)
                true (low_stock_alerts.acknowledged_by a) (Some now)
            else a) (low_stock_alerts d)) d.

(** ** The first migration's bodies *)

(** [CAST(SUBSTRING(sale_number FROM 4) AS integer)] *)
Definition sale_number_value (s : string) : option N :=
  Pg.cast_integer (Pg.substring_from s 4).

(** [generate_sale_number()]: one more than the largest number in use.
    A sale number whose tail is not a number makes the cast raise. *)
Definition generate_sale_number (d : db) : option string :=
  let candidates :=
    List.filter Pg.like_BD (map sales.sale_number (sales d)) in
  next_number ← fold_right
      (fun s acc => m ← acc; v ← sale_number_value s; Some (N.max m v))
      (Some 0%N) candidates;
  Some (format_sale_number (next_number + 1)).

(** [check_low_stock()] as first defined: the alert is removed when the
    stock is above the threshold.  Replaced by the body above. *)
Definition check_low_stock_v1 (NEW : products.row) (d : db) : db :=
  if products.stock_quantity NEW <=? products.low_stock_threshold NEW then
    let conflict (a : low_stock_alerts.row) :=
      N.eqb (low_stock_alerts.product_id a) (products.id NEW) in
    if existsb conflict (low_stock_alerts d) then
      with_low_stock_alerts
        (map (fun a =>
                if conflict a then
                  low_stock_alerts.mk
                    (low_stock_alerts.id a) (low_stock_alerts.product_id a)
                    (products.stock_quantity NEW)
                    (products.low_stock_threshold NEW)
                    false None None
                else a) (low_stock_alerts d)) d
    else
      let (i, d1) := gen_random_uuid d in
      with_low_stock_alerts
        (low_stock_alerts d1 ++
           [low_stock_alerts.mk i (products.id NEW)
              (products.stock_quantity NEW) (products.low_stock_threshold NEW)
              false None None]) d1
  else
    with_low_stock_alerts
      (List.filter (fun a => negb (N.eqb (low_stock_alerts.product_id a)
                                         (products.id NEW)))
                   (low_stock_alerts d)) d.

(** ** The audit-logging migration *)

(** [audit_trigger_function()]; [created_at] is set to [now()], which is
    also its default. *)
Definition audit_trigger_function (auth_uid : option uuid)
    (TG_TABLE_NAME : audit_logs.tg_table_name) (ev : tg_event) (d : db) : db :=
  match ev with
  | deleted OLD =>
      with_audit_logs
        (audit_logs d ++
           [audit_logs.mk auth_uid audit_logs.DELETE TG_TABLE_NAME
              (jsonb_id OLD) (Some OLD) None]) d
  | updated OLD NEW =>
      with_audit_logs
        (audit_logs d ++
           [audit_logs.mk auth_uid audit_logs.UPDATE TG_TABLE_NAME
              (jsonb_id NEW) (Some OLD) (Some NEW)]) d
  | inserted NEW =>
      with_audit_logs
        (audit_logs d ++
           [audit_logs.mk auth_uid audit_logs.INSERT TG_TABLE_NAME
              (jsonb_id NEW) None (Some NEW)]) d
  end.

(** ** The POS screen: [src/components/Sales.tsx] *)

Module Sales.

(** [interface Product]: the columns [fetchProducts] selects (the sku and
    the barcode are only displayed and searched). *)
Record Product := mkProduct {
  id : uuid;
  name : string;
  selling_price : Q;
  stock_quantity : Z
}.

Record CartItem := mkCartItem {
  product : Product;
  quantity : Z;
  unit_price : Q;
  total_price : Q
}.

(** [fetchProducts]: the active products in stock.  The rows come back
    ordered by name; the list is only ever searched by id, and the order
    is not modelled. *)
Definition fetchProducts (d : db) : list Product :=
  map (fun r => mkProduct (products.id r) (products.name r)
                          (products.selling_price r)
                          (products.stock_quantity r))
      (List.filter (fun r => products.is_active r
                             && (products.stock_quantity r >? 0))
                   (snd <$> map_to_list (products d))).

(** [sale_items ( * )] embedded in the select of one sale. *)
Definition itemsOfSale (saleId : uuid) (d : db) : list sale_items.row :=
  List.filter (fun it => N.eqb (sale_items.sale_id it) saleId)
              (sale_items d).

(** The component state that the sale path reads or writes; [user] is
    the session of the Supabase client and [profile] is [profile?.id]. *)
Record State := mkState {
  user : uuid;
  profile : option uuid;
  products : list Product;
  cart : list CartItem;
  selectedCustomer : option uuid;
  paymentMethod : payment_method_t;
  discountType : discount_type_t;
  discountValue : Q;
  taxRate : Q;
  amountPaid : Q
}.

Definition setProducts (ps : list Product) (st : State) : State :=
  mkState (user st) (profile st) ps (cart st) (selectedCustomer st)
          (paymentMethod st) (discountType st) (discountValue st)
          (taxRate st) (amountPaid st).

Definition setCart (c : list CartItem) (st : State) : State :=
  mkState (user st) (profile st) (products st) c (selectedCustomer st)
          (paymentMethod st) (discountType st) (discountValue st)
          (taxRate st) (amountPaid st).

Definition setSelectedCustomer (c : option uuid) (st : State) : State :=
  mkState (user st) (profile st) (products st) (cart st) c
          (paymentMethod st) (discountType st) (discountValue st)
          (taxRate st) (amountPaid st).

Definition setPaymentMethod (m : payment_method_t) (st : State) : State :=
  mkState (user st) (profile st) (products st) (cart st)
          (selectedCustomer st) m (discountType st) (discountValue st)
          (taxRate st) (amountPaid st).

Definition setDiscountType (t : discount_type_t) (st : State) : State :=
  mkState (user st) (profile st) (products st) (cart st)
          (selectedCustomer st) (paymentMethod st) t (discountValue st)
          (taxRate st) (amountPaid st).

Definition setDiscountValue (v : Q) (st : State) : State :=
  mkState (user st) (profile st) (products st) (cart st)
          (selectedCustomer st) (paymentMethod st) (discountType st) v
          (taxRate st) (amountPaid st).

Definition setAmountPaid (v : Q) (st : State) : State :=
  mkState (user st) (profile st) (products st) (cart st)
          (selectedCustomer st) (paymentMethod st) (discountType st)
          (discountValue st) (taxRate st) v.

Definition sameProduct (productId : uuid) (item : CartItem) : bool :=
  N.eqb (id (product item)) productId.

Definition withQuantity (q : Z) (item : CartItem) : CartItem :=
  mkCartItem (product item) q (unit_price item)
             (inject_Z q * unit_price item)%Q.

Definition addToCart (p : Product) (st : State) : State :=
  match List.find (sameProduct (id p)) (cart st) with
  | Some existingItem =>
      if quantity existingItem <? stock_quantity p then
        setCart (map (fun item =>
                        if sameProduct (id p) item
                        then withQuantity (quantity item + 1) item
                        else item) (cart st)) st
      else st
  | None =>
      setCart (cart st ++ [mkCartItem p 1 (selling_price p) (selling_price p)])
              st
  end.

Definition removeFromCart (productId : uuid) (st : State) : State :=
  setCart (List.filter (fun item => negb (sameProduct productId item))
                       (cart st)) st.

Definition updateCartItemQuantity (productId : uuid) (q : Z) (st : State)
  : State :=
  if q <=? 0 then removeFromCart productId st
  else
    let notEnough :=
      match List.find (fun p => N.eqb (id p) productId) (products st) with
      | Some p => q >? stock_quantity p
      | None => false
      end in
    if notEnough then st
    else setCart (map (fun item =>
                         if sameProduct productId item
                         then withQuantity q item else item) (cart st)) st.

Definition clearCart (st : State) : State :=
  setAmountPaid 0 (setDiscountValue 0 (setSelectedCustomer None
                                         (setCart [] st))).

(** *** Cart calculator *)

Definition calculateSubtotal (st : State) : Q :=
  fold_left (fun sum item => (sum + total_price item)%Q) (cart st) 0%Q.

Definition calculateDiscountAmount (st : State) : Q :=
  let subtotal := calculateSubtotal st in
  match discountType st with
  | percentage => ((subtotal * discountValue st) / 100)%Q
  | flat => discountValue st
  end.

Definition calculateTaxAmount (st : State) : Q :=
  let subtotalAfterDiscount :=
    (calculateSubtotal st - calculateDiscountAmount st)%Q in
  (subtotalAfterDiscount * taxRate st)%Q.

Definition calculateTotal (st : State) : Q :=
  (calculateSubtotal st - calculateDiscountAmount st
   + calculateTaxAmount st)%Q.

Definition calculateChangeDue (st : State) : Q :=
  let total := calculateTotal st in
  if Qgtb (amountPaid st) total then (amountPaid st - total)%Q else 0%Q.

(** *** [processSale] *)

Inductive Alert :=
| CartIsEmpty
| TotalCannotBeNegative
| InsufficientPaymentAmount
| ErrorProcessingSale (e : pg_error).

(** [completeSale]: the sale as read back, with its items and the values
    the client adds for the receipt. *)
Record CompleteSale := mkCompleteSale {
  sale : sales.row;
  sale_items : list sale_items.row;
  tax_amount : Q;
  change_due : Q;
  amount_paid : Q
}.

Definition isCash (m : payment_method_t) : bool :=
  match m with cash => true | _ => false end.

Definition saleTuple (st : State) : sales.tuple :=
  let positive := Qgtb (discountValue st) 0 in
  sales.mk_tuple None (selectedCustomer st) (profile st)
    (calculateSubtotal st)
    (if positive then Some (discountType st) else None)
    (if positive then Some (discountValue st) else None)
    (Some (calculateDiscountAmount st))
    (calculateTotal st) (paymentMethod st).

Definition saleItems (saleId : uuid) (st : State) : list sale_items.tuple :=
  map (fun item => sale_items.mk_tuple saleId (id (product item))
                     (quantity item) (unit_price item) (total_price item))
      (cart st).

(** The three requests of the [try] block, each its own statement: the
    insert of the sale, the insert of its items, the read of the sale for
    the receipt.  A request that fails leaves the earlier ones in place. *)
Definition submitSale (auth_uid : option uuid) (t : sales.tuple)
    (lines : uuid -> list sale_items.tuple) (d : db) : outcome sales.row :=
  match insert_sale auth_uid t d with
  | raised e d1 => raised e d1
  | ok saleData d1 =>
      match insert_sale_items auth_uid (lines (sales.id saleData)) d1 with
      | raised e d2 => raised e d2
      | ok _ d2 =>
          match List.find (fun r => N.eqb (sales.id r) (sales.id saleData))
                          (sales d2) with
          | None => raised no_rows d2
          | Some completeSale => ok completeSale d2
          end
      end
  end.

(** The [set...] calls take effect after the handler: every value the
    handler reads is that of the state it was called in. *)
Definition processSale (st : State) (d : db)
  : (Alert + CompleteSale) * State * db :=
  match cart st with
  | [] => (inl CartIsEmpty, st, d)
  | _ :: _ =>
      let total := calculateTotal st in
      if Qltb total 0 then (inl TotalCannotBeNegative, st, d)
      else
        let exact := isCash (paymentMethod st) && Qeq_bool (amountPaid st) 0 in
        if negb exact && isCash (paymentMethod st)
           && Qltb (amountPaid st) total
        then (inl InsufficientPaymentAmount, st, d)
        else
          let st1 := if exact then setAmountPaid total st else st in
          let taxAmount := calculateTaxAmount st in
          match submitSale (Some (user st)) (saleTuple st)
                           (fun saleId => saleItems saleId st) d with
          | raised e d' => (inl (ErrorProcessingSale e), st1, d')
          | ok completeSale d' =>
              (inr (mkCompleteSale completeSale
                      (itemsOfSale (sales.id completeSale) d')
                      taxAmount (calculateChangeDue st) (amountPaid st)),
               setProducts (fetchProducts d') (clearCart st1),
               d')
          end
  end.

End Sales.

(** ** The receipt preview: [showReceiptPreview] of [Sales.tsx] *)

Module Preview.



End Preview.


(** ** The alert hook: [useLowStockAlerts] *)

Definition acknowledgeAlert (alertId : uuid) (now : timestamptz) (d : db)
  : db :=
  update_alert_acknowledged alertId now d.

(** [fetchAlerts]: the alerts come back newest first; their order is read
    by nothing here and is not modelled. *)
Definition fetchAlerts (d : db) : list low_stock_alerts.row :=
  low_stock_alerts d.

Definition unacknowledgedCount (alerts : list low_stock_alerts.row) : nat :=
  length (List.filter (fun alert => negb (low_stock_alerts.is_acknowledged alert))
                      alerts).

(** ** The running system

    Any number of tills on one database.  A step is one handler of one
    till, run to its end; the statements of different tills do not
    overlap in time. *)

Record World := mkWorld {
  tills : list Sales.State;
  database : db
}.

Inductive Action :=
| AddToCart (listed : nat)
| UpdateCartItemQuantity (productId : uuid) (q : Z)
| RemoveFromCart (productId : uuid)
| ClearCart
| SelectCustomer (c : option uuid)
| SelectPaymentMethod (m : payment_method_t)
| SelectDiscountType (t : discount_type_t)
| EnterDiscountValue (v : Q)
| EnterAmountPaid (v : Q)
| FetchProducts
| ProcessSale
| AcknowledgeAlert (alertId : uuid) (now : timestamptz).

(** What a handler does to its till and to the database.  A product is
    added by a click on its card in the list of the till. *)
Definition act (a : Action) (st : Sales.State) (d : db) : Sales.State * db :=
  match a with
  | AddToCart listed =>
      match Sales.products st !! listed with
      | Some p => (Sales.addToCart p st, d)
      | None => (st, d)
      end
  | UpdateCartItemQuantity i q => (Sales.updateCartItemQuantity i q st, d)
  | RemoveFromCart i => (Sales.removeFromCart i st, d)
  | ClearCart => (Sales.clearCart st, d)
  | SelectCustomer c => (Sales.setSelectedCustomer c st, d)
  | SelectPaymentMethod m => (Sales.setPaymentMethod m st, d)
  | SelectDiscountType t => (Sales.setDiscountType t st, d)
  | EnterDiscountValue v => (Sales.setDiscountValue v st, d)
  | EnterAmountPaid v => (Sales.setAmountPaid v st, d)
  | FetchProducts => (Sales.setProducts (Sales.fetchProducts d) st, d)
  | ProcessSale => let '(_, st', d') := Sales.processSale st d in (st', d')
  | AcknowledgeAlert i now => (st, acknowledgeAlert i now d)
  end.

Definition run (till : nat) (a : Action) (w : World) : World :=
  match tills w !! till with
  | Some st =>
      let (st', d') := act a st (database w) in
      mkWorld (<[till := st']> (tills w)) d'
  | None => w
  end.

(** A freshly migrated database holding a catalog, and a till as mounted
    on it by a session: the user and, when it was loaded, the profile. *)
Definition fresh_db (catalog : gmap uuid products.row) (first_uuid : N) : db :=
  mk_db catalog [] [] [] [] 0 first_uuid.

Definition mounted (d : db) (session : uuid * option uuid) : Sales.State :=
  Sales.mkState session.1 session.2 (Sales.fetchProducts d) [] None cash flat 0
                (75 # 1000) 0.

Definition catalog_ok (catalog : gmap uuid products.row) : Prop :=
  forall k r, catalog !! k = Some r ->
              products.id r = k /\ 0 <= products.stock_quantity r.

Inductive reachable : World -> Prop :=
| reachable_start catalog first_uuid sessions :
    catalog_ok catalog ->
    reachable (mkWorld (map (mounted (fresh_db catalog first_uuid)) sessions)
                       (fresh_db catalog first_uuid))
| reachable_run till a w : reachable w -> reachable (run till a w).

(** ** Vocabulary of the statements *)

Definition clamp (lo hi v : Q) : Q :=
  if Qltb v lo then lo else if Qltb hi v then hi else v.

(** The discount with the percentage clamped to [0, 100]. *)
Definition discountAmount_clamped (st : Sales.State) : Q :=
  match Sales.discountType st with
  | percentage =>
      (Sales.calculateSubtotal st * clamp 0 100 (Sales.discountValue st) / 100)%Q
  | flat => Sales.discountValue st
  end.

(** The columns of an alert that an acknowledgement writes. *)
Definition acknowledged (now : timestamptz) (a : low_stock_alerts.row)
  : low_stock_alerts.row :=
  low_stock_alerts.mk (low_stock_alerts.id a) (low_stock_alerts.product_id a)
    (low_stock_alerts.current_stock a) (low_stock_alerts.threshold a)
    true (low_stock_alerts.acknowledged_by a) (Some now).

(** The rows a multi-row insert of [ts] creates, ids counted from [first]. *)
Fixpoint rows_from (first : N) (ts : list sale_items.tuple)
  : list sale_items.row :=
  match ts with
  | [] => []
  | t :: ts' =>
      sale_items.mk first (sale_items.t_sale_id t) (sale_items.t_product_id t)
        (sale_items.t_quantity t) (sale_items.t_unit_price t)
        (sale_items.t_total_price t)
      :: rows_from (first + 1) ts'
  end.

(** The quantity of product [k] on the rows [rows]. *)
Definition sold (k : uuid) (rows : list sale_items.row) : Z :=
  fold_right
    (fun it acc =>
       (if N.eqb (sale_items.product_id it) k then sale_items.quantity it
        else 0) + acc)
    0 rows.

(** The quantity of product [k] in a cart. *)
Definition in_cart (k : uuid) (c : list Sales.CartItem) : Z :=
  fold_right
    (fun item acc =>
       (if Sales.sameProduct k item then Sales.quantity item else 0) + acc)
    0 c.

(** Generated ids are fresh, sale items point to sales, and a product is
    stored under its id. *)
Definition db_wf (d : db) : Prop :=
  Forall (fun i => (i < uuid_gen d)%N) (map sales.id (sales d))
  /\ Forall (fun i => (i < uuid_gen d)%N)
            (map sale_items.sale_id (sale_items d))
  /\ (forall k r, products d !! k = Some r -> products.id r = k).

(** What an audit entry is about. *)
Definition audit_key (e : audit_logs.row)
  : audit_logs.tg_op * audit_logs.tg_table_name * uuid :=
  (audit_logs.action e, audit_logs.table_name e, audit_logs.record_id e).

(** The columns of a sale that no trigger writes. *)
Definition as_inserted (r : sales.row) :=
  (sales.id r, sales.sale_number r, sales.customer_id r, sales.cashier_id r,
   sales.discount_type r, sales.discount_value r, sales.discount_amount r,
   sales.payment_method r).

(** The sale row that [insert_sale] builds from a tuple without a
    number, and the audit entry of its insertion. *)
Definition inserted_sale (t : sales.tuple) (cashier : uuid) (d : db)
  : sales.row :=
  sales.mk (uuid_gen d) (format_sale_number (sale_number_seq d + 1))
    (sales.t_customer_id t) cashier (sales.t_subtotal t)
    (sales.t_discount_type t) (sales.t_discount_value t)
    (sales.t_discount_amount t) (sales.t_total_amount t)
    (sales.t_payment_method t).

Definition sale_entry (uid : option uuid) (r : sales.row) : audit_logs.row :=
  audit_logs.mk uid audit_logs.INSERT audit_logs.t_sales (sales.id r) None
                (Some (audit_logs.of_sale r)).

(** The database once the sale row [r] is in: the sale, its audit entry,
    the sequence and the id generator moved on. *)
Definition with_inserted_sale (uid : option uuid) (r : sales.row) (d : db)
  : db :=
  with_audit_logs (audit_logs d ++ [sale_entry uid r])
    (with_sales (sales d ++ [r])
       (with_sale_number_seq (sale_number_seq d + 1)
          (with_uuid_gen (uuid_gen d + 1) d))).



(** The product ids of the lines of a cart. *)
Definition cart_ids (c : list Sales.CartItem) : list uuid :=
  map (fun item => Sales.id (Sales.product item)) c.



(** The sale numbers in the table are those of increasing counter values
    handed out so far. *)
Definition numbers_inv (d : db) : Prop :=
  exists ns,
    map sales.sale_number (sales d) = map format_sale_number ns
    /\ StronglySorted N.lt ns
    /\ Forall (fun n => (1 <= n <= sale_number_seq d)%N) ns.

(** The audit entries of a sale-totals update that selects by [i]. *)
Definition sales_update_entries (uid : option uuid) (i : uuid)
    (set : sales.row -> sales.row) (l : list sales.row)
  : list audit_logs.row :=
  flat_map (fun OLD =>
              if N.eqb (sales.id OLD) i then
                [audit_logs.mk uid audit_logs.UPDATE audit_logs.t_sales
                   (sales.id (set OLD)) (Some (audit_logs.of_sale OLD))
                   (Some (audit_logs.of_sale (set OLD)))]
              else []) l.

(** A cart line as the cart handlers build it: at least one unit, at the
    price the product was listed with, and priced by the piece. *)
Definition line_ok (item : Sales.CartItem) : Prop :=
  1 <= Sales.quantity item
  /\ Sales.unit_price item = Sales.selling_price (Sales.product item)
  /\ (Sales.total_price item
      == inject_Z (Sales.quantity item) * Sales.unit_price item)%Q.

(** The line of product [k] in a cart, if any. *)
Definition line_of (k : uuid) (c : list Sales.CartItem)
  : option Sales.CartItem :=
  List.find (Sales.sameProduct k) c.

(** What every handler keeps of a till: well-built cart lines and the tax
    rate the component starts with. *)
Definition till_ok (st : Sales.State) : Prop :=
  Forall line_ok (Sales.cart st) /\ Sales.taxRate st = (75 # 1000)%Q.

(** The alerts of [processSale] that come before any request. *)
Definition guard_alert (a : Sales.Alert) : bool :=
  match a with
  | Sales.ErrorProcessingSale _ => false
  | _ => true
  end.



(** What a statement of the session [uid] may do to the tables other than
    [products]: it adds entries to the log in the name of [uid], adds
    alerts, sales and sale items, and moves the sequence on. *)
Definition grows (uid : option uuid) (d d' : db) : Prop :=
  (exists news, audit_logs d' = audit_logs d ++ news
                /\ Forall (fun e => audit_logs.user_id e = uid) news)
  /\ (exists l, map low_stock_alerts.id (low_stock_alerts d')
                = map low_stock_alerts.id (low_stock_alerts d) ++ l)
  /\ (exists l, map as_inserted (sales d') = map as_inserted (sales d) ++ l)
  /\ (exists l, sale_items d' = sale_items d ++ l)
  /\ (sale_number_seq d <= sale_number_seq d')%N.

Ltac grows_parts := split; [|split; [|split; [|split]]].

Ltac grows_nil :=
  exists []; rewrite ?app_nil_r;
  first [reflexivity|split; [reflexivity|constructor]].


(** ** Sample data *)

Definition sneaker : products.row := products.mk 1%N "Sneaker" 100 5 10 true.
Definition hoodie : products.row :=
  products.mk 2%N "Hoodie" (25 # 2) 12 10 true.

Definition shop : gmap uuid products.row :=
  <[1%N := sneaker]> (<[2%N := hoodie]> ∅).

Definition shop_db : db := fresh_db shop 100.

(** Two tills open on the shop; both list the hoodie, then the sneaker at
    five in stock. *)
Definition opening : World :=
  mkWorld (map (mounted shop_db) [(7%N, Some 7%N); (8%N, Some 8%N)]) shop_db.

Definition till : Sales.State := mounted shop_db (7%N, Some 7%N).

Definition other_till : Sales.State := mounted shop_db (8%N, Some 8%N).

Definition listed_sneaker : Sales.Product :=
  Sales.mkProduct 1%N "Sneaker" 100 5.

(** Two sneakers in the cart of the first till. *)
Definition two_sneakers : Sales.State :=
  Sales.addToCart listed_sneaker (Sales.addToCart listed_sneaker till).

(** The sale of those two sneakers, and the database after it: three
    sneakers are left, below the threshold of ten. *)
Definition sold_two : (Sales.Alert + Sales.CompleteSale) * Sales.State * db :=
  Sales.processSale two_sneakers shop_db.

Definition after_sale : db := sold_two.2.

(** Meanwhile the second till has put five sneakers in its cart, from its
    list of five in stock; its sale comes second and is refused. *)
Definition five_in_cart : Sales.State :=
  Nat.iter 5 (Sales.addToCart listed_sneaker) other_till.


(** The same, step by step. *)
Definition closing : World :=
  run 1 ProcessSale
    (run 0 ProcessSale
       (Nat.iter 5 (run 1 (AddToCart 1))
          (Nat.iter 2 (run 0 (AddToCart 1)) opening))).



(** The request of the two-sneaker sale, and the same with totals of 1. *)
Definition honest : sales.tuple := Sales.saleTuple two_sneakers.


(** Ten percent off the two sneakers, paid with 200 in cash. *)
Definition ten_percent_off : Sales.State :=
  Sales.setAmountPaid 200
    (Sales.setDiscountValue 10 (Sales.setDiscountType percentage two_sneakers)).

(** Three hoodies in the cart: twelve in stock, threshold ten. *)
Definition three_hoodies : Sales.State :=
  Nat.iter 3 (Sales.addToCart (Sales.mkProduct 2 "Hoodie" (25 # 2) 12)) till.

(** The first till with two sneakers in its cart, nothing sold yet. *)
Definition browsing : World := Nat.iter 2 (run 0 (AddToCart 1)) opening.

(** The request of the two-sneaker sale with a sale number of its own. *)
Definition numbered : sales.tuple :=
  sales.set_sale_number (Some "BD-000001"%string) honest.



(** ** The cart calculator *)

Lemma Qltb_false_iff (a b : Q) : Qltb a b = false <-> (b <= a)%Q.
Proof.
  unfold Qltb. rewrite negb_false_iff. apply Qle_bool_iff.
Qed.

Lemma clamp_inside (lo hi v : Q) : (lo <= v <= hi)%Q -> clamp lo hi v = v.
Proof.
  intros [Hlo Hhi]. unfold clamp.
  apply Qltb_false_iff in Hlo, Hhi. now rewrite Hlo, Hhi.
Qed.

(** Two sneakers at 100, ten percent off, tax at 7.5 percent, 200 paid in
    cash: 200, 20, 13.50, 193.50, and 6.50 back. *)
Example ten_percent_off_amounts :
  (Sales.calculateSubtotal ten_percent_off == 200)%Q
  /\ (Sales.calculateDiscountAmount ten_percent_off == 20)%Q
  /\ (Sales.calculateTaxAmount ten_percent_off == 135 # 10)%Q
  /\ (Sales.calculateTotal ten_percent_off == 1935 # 10)%Q
  /\ (Sales.calculateChangeDue ten_percent_off == 65 # 10)%Q.
Proof. vm_compute. repeat split. Qed.

(** C8, as amended: the calculator takes the discount value as entered.
    A percentage discount is [subtotal * value / 100] with no clamp on the
    value, a flat discount is the value itself, not clamped to the
    subtotal; for a value within [0, 100] this is the clamped formula. *)
Theorem calculateDiscountAmount_as_entered (st : Sales.State) :
  (Sales.calculateDiscountAmount st ==
     match Sales.discountType st with
     | percentage =>
         Sales.calculateSubtotal st * Sales.discountValue st / 100
     | flat => Sales.discountValue st
     end)%Q
  /\ ((0 <= Sales.discountValue st <= 100)%Q ->
      (Sales.calculateDiscountAmount st == discountAmount_clamped st)%Q).
Proof.
  split.
  - unfold Sales.calculateDiscountAmount.
    destruct (Sales.discountType st); reflexivity.
  - intros Hrange.
    unfold Sales.calculateDiscountAmount, discountAmount_clamped.
    rewrite (clamp_inside _ _ _ Hrange).
    destruct (Sales.discountType st); reflexivity.
Qed.

Lemma calculateDiscountAmount_as_entered_witness :
  (Sales.calculateDiscountAmount
     (Sales.setDiscountValue 10 (Sales.setDiscountType percentage two_sneakers))
   == discountAmount_clamped
        (Sales.setDiscountValue 10
           (Sales.setDiscountType percentage two_sneakers)))%Q.
Proof.
  apply (calculateDiscountAmount_as_entered
           (Sales.setDiscountValue 10
              (Sales.setDiscountType percentage two_sneakers))).
  split; vm_compute; discriminate.
Defined.

(** C8 as stated fails: 150 percent of a subtotal of 200 is taken as 300,
    where the clamped formula gives 200. *)
Lemma calculateDiscountAmount_not_clamped :
  ~ (Sales.calculateDiscountAmount
       (Sales.setDiscountValue 150
          (Sales.setDiscountType percentage two_sneakers))
     == discountAmount_clamped
          (Sales.setDiscountValue 150
             (Sales.setDiscountType percentage two_sneakers)))%Q.
Proof. vm_compute. discriminate. Qed.

(** ** Alerts *)

(** C10, as amended: [acknowledgeAlert] sets [is_acknowledged] and
    [acknowledged_at] on the alert of that id and writes nothing else: the
    acknowledging actor is not recorded ([acknowledged_by] keeps its
    value).  Acknowledging again is not an error and overwrites the
    timestamp: the state is that of the last acknowledgement alone. *)
Theorem acknowledgeAlert_writes (alertId : uuid) (now later : timestamptz)
    (d : db) :
  Forall2 (fun a a' =>
             a' = if N.eqb (low_stock_alerts.id a) alertId
                  then acknowledged now a else a)
          (low_stock_alerts d)
          (low_stock_alerts (acknowledgeAlert alertId now d))
  /\ acknowledgeAlert alertId now d
     = with_low_stock_alerts
         (low_stock_alerts (acknowledgeAlert alertId now d)) d
  /\ acknowledgeAlert alertId later (acknowledgeAlert alertId now d)
     = acknowledgeAlert alertId later d.
Proof.
  unfold acknowledgeAlert, update_alert_acknowledged, acknowledged.
  split; [|split].
  - cbn [low_stock_alerts with_low_stock_alerts].
    induction (low_stock_alerts d) as [|a l IH]; constructor; auto.
  - reflexivity.
  - cbn [low_stock_alerts with_low_stock_alerts products sales sale_items
         audit_logs sale_number_seq uuid_gen].
    unfold with_low_stock_alerts. f_equal.
    rewrite map_map. apply map_ext. intros a.
    destruct (N.eqb (low_stock_alerts.id a) alertId) eqn:E; cbn.
    + rewrite E. reflexivity.
    + rewrite E. reflexivity.
Qed.

(** C10 as stated fails twice over: after an acknowledgement at time 5 the
    alert carries no actor, and a second acknowledgement at time 9 changes
    the alert. *)
Lemma acknowledgeAlert_not_a_noop :
  map low_stock_alerts.acknowledged_by
      (low_stock_alerts (acknowledgeAlert 102%N 5%N after_sale)) = [None]
  /\ map low_stock_alerts.is_acknowledged
         (low_stock_alerts (acknowledgeAlert 102%N 5%N after_sale)) = [true]
  /\ acknowledgeAlert 102%N 9%N (acknowledgeAlert 102%N 5%N after_sale)
     <> acknowledgeAlert 102%N 5%N after_sale.
Proof.
  split; [|split]; [vm_compute; reflexivity ..|].
  intros H.
  apply (f_equal (fun d => map low_stock_alerts.acknowledged_at
                               (low_stock_alerts d))) in H.
  vm_compute in H. discriminate.
Qed.

(** Selling three of twelve hoodies, threshold ten, raises an
    unacknowledged alert at nine. *)
Example three_hoodies_alert :
  map (fun a => (low_stock_alerts.product_id a,
                 low_stock_alerts.current_stock a,
                 low_stock_alerts.is_acknowledged a))
      (low_stock_alerts (Sales.processSale three_hoodies shop_db).2)
  = [(2%N, 9, false)].
Proof. vm_compute. reflexivity. Qed.


Lemma check_low_stock_above (NEW : products.row) (d : db) :
  products.low_stock_threshold NEW < products.stock_quantity NEW ->
  check_low_stock NEW d = d.
Proof.
  intros H. unfold check_low_stock.
  destruct (Z.leb_spec (products.stock_quantity NEW)
                       (products.low_stock_threshold NEW)); [lia|reflexivity].
Qed.

(** C9: a stock mutation that leaves the product above its threshold
    leaves the alert table as it was; nothing clears or resolves an alert
    on restock. *)
Theorem stock_above_threshold_keeps_alerts (auth_uid : option uuid)
    (pid : uuid) (set : products.row -> products.row) (d : db)
    (OLD : products.row) :
  products d !! pid = Some OLD ->
  products.low_stock_threshold (set OLD) < products.stock_quantity (set OLD) ->
  low_stock_alerts (update_products auth_uid pid set d) = low_stock_alerts d.
Proof.
  intros Hrow Habove. unfold update_products. rewrite Hrow.
  rewrite check_low_stock_above by exact Habove.
  reflexivity.
Qed.

(** Restocking the sneaker from three to fifty leaves its alert live. *)
Lemma stock_above_threshold_keeps_alerts_witness :
  low_stock_alerts
    (update_products (Some 7%N) 1%N (products.set_stock_quantity 50) after_sale)
  = low_stock_alerts after_sale
  /\ map low_stock_alerts.product_id (low_stock_alerts after_sale) = [1%N].
Proof.
  split.
  - apply (stock_above_threshold_keeps_alerts (Some 7%N) 1%N
             (products.set_stock_quantity 50) after_sale
             (products.set_stock_quantity 3 sneaker)).
    + vm_compute. reflexivity.
    + vm_compute. reflexivity.
  - vm_compute. reflexivity.
Defined.

(** The first migration's body did clear the alert; the later
    [CREATE OR REPLACE] dropped that branch. *)
Remark check_low_stock_v1_clears :
  low_stock_alerts
    (check_low_stock_v1 (products.set_stock_quantity 50 sneaker) after_sale)
  = [].
Proof. vm_compute. reflexivity. Qed.

(** ** The stock ledger *)

Lemma with_audit_logs_same (d : db) : with_audit_logs (audit_logs d) d = d.
Proof. destruct d; reflexivity. Qed.

Lemma check_low_stock_frame (NEW : products.row) (d : db) :
  products (check_low_stock NEW d) = products d
  /\ sales (check_low_stock NEW d) = sales d
  /\ sale_items (check_low_stock NEW d) = sale_items d
  /\ audit_logs (check_low_stock NEW d) = audit_logs d
  /\ sale_number_seq (check_low_stock NEW d) = sale_number_seq d
  /\ (uuid_gen d <= uuid_gen (check_low_stock NEW d))%N.
Proof.
  unfold check_low_stock.
  destruct (_ <=? _); [|repeat split; lia].
  destruct (existsb _ _); cbn; repeat split; lia.
Qed.

(** What [UPDATE products] leaves behind, table by table. *)
Lemma update_products_frame uid pid set d :
  sales (update_products uid pid set d) = sales d
  /\ sale_items (update_products uid pid set d) = sale_items d
  /\ sale_number_seq (update_products uid pid set d) = sale_number_seq d
  /\ (uuid_gen d <= uuid_gen (update_products uid pid set d))%N
  /\ products (update_products uid pid set d)
     = match products d !! pid with
       | Some OLD => <[pid := set OLD]> (products d)
       | None => products d
       end
  /\ audit_logs (update_products uid pid set d)
     = audit_logs d ++
       match products d !! pid with
       | Some OLD =>
           [audit_logs.mk uid audit_logs.UPDATE audit_logs.t_products
              (products.id (set OLD)) (Some (audit_logs.of_product OLD))
              (Some (audit_logs.of_product (set OLD)))]
       | None => []
       end.
Proof.
  unfold update_products.
  destruct (products d !! pid) as [OLD|] eqn:E.
  - match goal with |- context [check_low_stock ?r ?x] =>
      destruct (check_low_stock_frame r x) as (Hp & Hs & Hi & Ha & Hq & Hu)
    end.
    rewrite Hp, Hs, Hi, Ha, Hq. cbn in *. repeat split; auto.
  - rewrite app_nil_r. repeat split; lia.
Qed.

Lemma fold_sales_update_entries uid i set l (acc : db) :
  fold_left
    (fun acc OLD =>
       if N.eqb (sales.id OLD) i then
         create_audit_log uid audit_logs.t_sales
           (updated (audit_logs.of_sale OLD) (audit_logs.of_sale (set OLD))) acc
       else acc) l acc
  = with_audit_logs (audit_logs acc ++ sales_update_entries uid i set l) acc.
Proof.
  revert acc. induction l as [|r l IH]; intros acc; cbn.
  - rewrite app_nil_r. symmetry. apply with_audit_logs_same.
  - destruct (N.eqb (sales.id r) i).
    + rewrite IH. cbn. rewrite <- app_assoc. reflexivity.
    + rewrite IH. reflexivity.
Qed.

Lemma update_sales_totals_eq uid i set d :
  update_sales_totals uid i set d
  = with_audit_logs (audit_logs d ++ sales_update_entries uid i set (sales d))
      (with_sales (map (fun r => if N.eqb (sales.id r) i then set r else r)
                       (sales d)) d).
Proof.
  unfold update_sales_totals. rewrite fold_sales_update_entries. reflexivity.
Qed.

(** A sale-totals update that selects by an id no sale has changes
    nothing. *)
Lemma update_sales_totals_miss uid i set d :
  Forall (fun r => sales.id r <> i) (sales d) ->
  update_sales_totals uid i set d = d.
Proof.
  intros Hmiss. rewrite update_sales_totals_eq.
  assert (Hmap : map (fun r => if N.eqb (sales.id r) i then set r else r)
                     (sales d) = sales d).
  { induction Hmiss as [|r l Hr _ IH]; cbn; [reflexivity|].
    rewrite IH. apply N.eqb_neq in Hr. now rewrite Hr. }
  assert (Hent : sales_update_entries uid i set (sales d) = []).
  { clear Hmap. induction Hmiss as [|r l Hr _ IH]; cbn; [reflexivity|].
    apply N.eqb_neq in Hr. rewrite Hr. exact IH. }
  rewrite Hmap, Hent, app_nil_r. destruct d; reflexivity.
Qed.

Lemma calculate_sale_totals_frame uid NEW d :
  products (calculate_sale_totals uid NEW d) = products d
  /\ sale_items (calculate_sale_totals uid NEW d) = sale_items d
  /\ low_stock_alerts (calculate_sale_totals uid NEW d) = low_stock_alerts d
  /\ sale_number_seq (calculate_sale_totals uid NEW d) = sale_number_seq d
  /\ uuid_gen (calculate_sale_totals uid NEW d) = uuid_gen d.
Proof.
  unfold calculate_sale_totals. rewrite update_sales_totals_eq.
  repeat split.
Qed.

Lemma after_insert_sale_item_products uid NEW d :
  products (after_insert_sale_item uid NEW d)
  = match products d !! sale_items.product_id NEW with
    | Some OLD =>
        <[sale_items.product_id NEW :=
            products.set_stock_quantity
              (products.stock_quantity OLD - sale_items.quantity NEW) OLD]>
          (products d)
    | None => products d
    end.
Proof.
  unfold after_insert_sale_item, update_product_stock.
  match goal with |- context [update_products ?u ?p ?s ?x] =>
    destruct (update_products_frame u p s x) as (_ & _ & _ & _ & Hp & _)
  end.
  rewrite Hp.
  destruct (calculate_sale_totals_frame uid NEW
              (create_audit_log uid audit_logs.t_sale_items
                 (inserted (audit_logs.of_sale_item NEW)) d)) as (Hc & _).
  rewrite Hc. reflexivity.
Qed.




(** *** The rows of a multi-row insert *)

Lemma insert_sale_item_rows_ok ts : forall d rows d2,
  insert_sale_item_rows ts d = inr (rows, d2) ->
  rows = rows_from (uuid_gen d) ts
  /\ d2 = with_sale_items (sale_items d ++ rows)
            (with_uuid_gen (uuid_gen d + N.of_nat (length ts)) d)
  /\ Forall (fun t =>
               existsb (fun r => N.eqb (sales.id r) (sale_items.t_sale_id t))
                       (sales d) = true
               /\ exists p, products d !! sale_items.t_product_id t = Some p
                            /\ sale_items.t_quantity t
                               <= products.stock_quantity p) ts.
Proof.
  induction ts as [|t ts IH]; intros d rows d2 H; cbn in H.
  - injection H as <- <-. cbn. rewrite app_nil_r, N.add_0_r.
    repeat split; [destruct d; reflexivity|constructor].
  - unfold validate_stock_before_sale in H. cbn in H.
    destruct (products d !! sale_items.t_product_id t) as [p|] eqn:Hp;
      cbn in H.
    + destruct (Z.ltb_spec (products.stock_quantity p)
                           (sale_items.t_quantity t)); [discriminate|].
      destruct (references_ok _ _) eqn:Href; [|discriminate].
      destruct (insert_sale_item_rows ts _) as [e|[rows' d']] eqn:Hrec;
        [discriminate|].
      injection H as <- <-.
      apply IH in Hrec. destruct Hrec as (Hrows & Hd & Hall). cbn in *.
      repeat split.
      * now rewrite Hrows.
      * rewrite Hd. unfold with_sale_items, with_uuid_gen; cbn.
        rewrite <- app_assoc. cbn. f_equal. lia.
      * constructor; [|exact Hall].
        unfold references_ok in Href. cbn in Href.
        apply andb_true_iff in Href. destruct Href as [Hs _].
        split; [exact Hs|]. exists p. split; [exact Hp|lia].
    + unfold references_ok in H. cbn in H. rewrite Hp in H.
      rewrite andb_comm in H. cbn in H. discriminate.
Qed.

Lemma insert_sale_item_rows_err ts : forall d e,
  insert_sale_item_rows ts d = inl e ->
  (exists p q a, e = insufficient_stock p q a) \/ e = foreign_key_violation.
Proof.
  induction ts as [|t ts IH]; intros d e H; cbn in H; [discriminate|].
  destruct (validate_stock_before_sale _ _) as [e'|] eqn:Hv.
  - injection H as <-. unfold validate_stock_before_sale in Hv.
    destruct (_ <$> _); [|discriminate].
    destruct (_ <? _); [|discriminate]. injection Hv as <-. left. eauto.
  - destruct (references_ok _ _); [|injection H as <-; now right].
    destruct (insert_sale_item_rows ts _) as [e''|[rows' d']] eqn:Hrec;
      [|discriminate].
    injection H as <-. eapply IH. exact Hrec.
Qed.

(** *** The queued [AFTER INSERT] triggers *)

Lemma set_stock_quantity_same (r : products.row) :
  products.set_stock_quantity (products.stock_quantity r - 0) r = r.
Proof.
  destruct r; unfold products.set_stock_quantity; cbn.
  now rewrite Z.sub_0_r.
Qed.

(** Every product ends with its stock lowered by what the rows sold of
    it, and is otherwise as before. *)
Lemma after_rows_products uid rows : forall d k,
  products (fold_left (fun acc NEW => after_insert_sale_item uid NEW acc)
                      rows d) !! k
  = (fun r => products.set_stock_quantity
                (products.stock_quantity r - sold k rows) r)
      <$> products d !! k.
Proof.
  induction rows as [|NEW rows IH]; intros d k; cbn [fold_left sold fold_right].
  - destruct (products d !! k) as [r|]; cbn; [|reflexivity].
    now rewrite set_stock_quantity_same.
  - rewrite IH, after_insert_sale_item_products. fold (sold k rows).
    destruct (N.eqb_spec (sale_items.product_id NEW) k) as [->|Hne].
    + destruct (products d !! k) as [OLD|] eqn:E.
      * rewrite lookup_insert_eq. cbn. f_equal.
        unfold products.set_stock_quantity; cbn. f_equal; lia.
      * rewrite E. reflexivity.
    + destruct (products d !! sale_items.product_id NEW) as [OLD|] eqn:E.
      * rewrite lookup_insert_ne by exact Hne. reflexivity.
      * reflexivity.
Qed.

Lemma after_insert_sale_item_frame uid NEW d :
  sale_items (after_insert_sale_item uid NEW d) = sale_items d
  /\ sale_number_seq (after_insert_sale_item uid NEW d) = sale_number_seq d
  /\ (uuid_gen d <= uuid_gen (after_insert_sale_item uid NEW d))%N
  /\ map as_inserted (sales (after_insert_sale_item uid NEW d))
     = map as_inserted (sales d).
Proof.
  unfold after_insert_sale_item, update_product_stock.
  match goal with |- context [update_products ?u ?p ?s ?x] =>
    destruct (update_products_frame u p s x) as (Hs & Hi & Hq & Hu & _ & _)
  end.
  rewrite Hs, Hi, Hq.
  unfold calculate_sale_totals in *. rewrite update_sales_totals_eq in *.
  cbn in *. repeat split; [exact Hu|].
  rewrite map_map. apply map_ext. intros r.
  destruct (N.eqb (sales.id r) (sale_items.id NEW)); reflexivity.
Qed.

Lemma after_rows_frame uid rows : forall d,
  let d' := fold_left (fun acc NEW => after_insert_sale_item uid NEW acc)
                      rows d in
  sale_items d' = sale_items d
  /\ sale_number_seq d' = sale_number_seq d
  /\ (uuid_gen d <= uuid_gen d')%N
  /\ map as_inserted (sales d') = map as_inserted (sales d).
Proof.
  induction rows as [|NEW rows IH]; intros d; cbn.
  - repeat split; lia.
  - destruct (IH (after_insert_sale_item uid NEW d)) as (Hi & Hq & Hu & Hs).
    destruct (after_insert_sale_item_frame uid NEW d) as (Hi' & Hq' & Hu' & Hs').
    cbn in *. rewrite Hi, Hq, Hs, Hi', Hq', Hs'. repeat split. lia.
Qed.

(** With fresh ids the sale-totals trigger selects no sale, and the log
    gains, per row, the entry of the item and that of the stock update. *)
Lemma after_insert_sale_item_log uid NEW d OLD :
  Forall (fun r => sales.id r <> sale_items.id NEW) (sales d) ->
  products d !! sale_items.product_id NEW = Some OLD ->
  sales (after_insert_sale_item uid NEW d) = sales d
  /\ exists e1 e2,
       audit_logs (after_insert_sale_item uid NEW d)
       = audit_logs d ++ [e1; e2]
       /\ audit_key e1
          = (audit_logs.INSERT, audit_logs.t_sale_items, sale_items.id NEW)
       /\ audit_key e2
          = (audit_logs.UPDATE, audit_logs.t_products, products.id OLD).
Proof.
  intros Hmiss Hrow.
  unfold after_insert_sale_item, update_product_stock, calculate_sale_totals.
  rewrite update_sales_totals_miss by exact Hmiss.
  match goal with |- context [update_products ?u ?p ?s ?x] =>
    destruct (update_products_frame u p s x) as (Hs & _ & _ & _ & _ & Ha)
  end.
  rewrite Hs, Ha. cbn. rewrite Hrow. split; [reflexivity|].
  eexists _, _. split.
  - rewrite <- app_assoc. reflexivity.
  - split; reflexivity.
Qed.

Lemma after_rows_log uid rows : forall d,
  (forall k r, products d !! k = Some r -> products.id r = k) ->
  Forall (fun NEW =>
            Forall (fun r => sales.id r <> sale_items.id NEW) (sales d)
            /\ is_Some (products d !! sale_items.product_id NEW)) rows ->
  let d' := fold_left (fun acc NEW => after_insert_sale_item uid NEW acc)
                      rows d in
  sales d' = sales d
  /\ exists news,
       audit_logs d' = audit_logs d ++ news
       /\ map audit_key news
          = flat_map (fun NEW =>
                        [(audit_logs.INSERT, audit_logs.t_sale_items,
                          sale_items.id NEW);
                         (audit_logs.UPDATE, audit_logs.t_products,
                          sale_items.product_id NEW)]) rows.
Proof.
  induction rows as [|NEW rows IH]; intros d Hpk Hall; cbn.
  - split; [reflexivity|]. exists []. now rewrite app_nil_r.
  - inversion Hall as [|? ? [Hmiss [OLD Hrow]] Hall']; subst.
    destruct (after_insert_sale_item_log uid NEW d OLD Hmiss Hrow)
      as (Hs & e1 & e2 & Hlog & Hk1 & Hk2).
    destruct (IH (after_insert_sale_item uid NEW d)) as (Hs' & news & Hn & Hk).
    + intros k r Hk'.
      pose proof (after_rows_products uid [NEW] d k) as Hp. cbn in Hp.
      rewrite Hk' in Hp. destruct (products d !! k) as [r0|] eqn:E;
        [|discriminate].
      injection Hp as ->. cbn. destruct r0; cbn in *.
      specialize (Hpk k _ E). exact Hpk.
    + rewrite Hs. eapply Forall_impl; [exact Hall'|].
      intros it [Hm [p Hp]]. split; [exact Hm|].
      pose proof (after_rows_products uid [NEW] d (sale_items.product_id it))
        as Hq. cbn in Hq. rewrite Hp in Hq. cbn in Hq. eauto.
    + cbn in *. rewrite Hs', Hs. split; [reflexivity|].
      exists (e1 :: e2 :: news). split.
      * rewrite Hn, Hlog, <- app_assoc. reflexivity.
      * cbn. rewrite Hk1, Hk2, Hk, (Hpk _ _ Hrow). reflexivity.
Qed.

(** *** The insert of the sale *)

Lemma insert_sale_generated uid t d :
  sales.t_sale_number t = None ->
  insert_sale uid t d
  = match sales.t_cashier_id t with
    | Some cashier =>
        if existsb (fun r => String.eqb (sales.sale_number r)
                               (format_sale_number (sale_number_seq d + 1)))
                   (sales d)
        then raised unique_violation
               (with_sale_number_seq (sale_number_seq d + 1) d)
        else
          ok (inserted_sale t cashier d)
             (with_inserted_sale uid (inserted_sale t cashier d) d)
    | None => raised not_null_violation
                (with_sale_number_seq (sale_number_seq d + 1) d)
    end.
Proof.
  intros Hnone. unfold insert_sale, set_sale_number, gen_random_uuid, nextval.
  rewrite Hnone. cbn.
  destruct (sales.t_cashier_id t) as [cashier|]; [|reflexivity].
  destruct (existsb _ _); reflexivity.
Qed.

(** *** Well-formedness is kept *)

Lemma as_inserted_columns l : forall l',
  map as_inserted l = map as_inserted l' ->
  map sales.id l = map sales.id l'
  /\ map sales.sale_number l = map sales.sale_number l'
  /\ map sales.discount_amount l = map sales.discount_amount l'.
Proof.
  induction l as [|r l IH]; intros [|r' l'] H; cbn in *;
    try discriminate; [repeat split|].
  injection H as Hid Hnum _ _ _ _ Hda _ Htl.
  destruct (IH _ Htl) as (H1 & H2 & H3).
  now rewrite Hid, Hnum, Hda, H1, H2, H3.
Qed.

Lemma rows_from_columns ts : forall first,
  map sale_items.sale_id (rows_from first ts) = map sale_items.t_sale_id ts
  /\ map sale_items.product_id (rows_from first ts)
     = map sale_items.t_product_id ts
  /\ Forall (fun it => (first <= sale_items.id it)%N) (rows_from first ts).
Proof.
  induction ts as [|t ts IH]; intros first; cbn; [repeat split; constructor|].
  destruct (IH (first + 1)%N) as (H1 & H2 & H3).
  rewrite H1, H2. repeat split. constructor; [cbn; lia|].
  eapply Forall_impl; [exact H3|]. cbn. intros; lia.
Qed.

Lemma existsb_sale_id (i : uuid) (l : list sales.row) :
  existsb (fun r => N.eqb (sales.id r) i) l = true -> In i (map sales.id l).
Proof.
  rewrite existsb_exists. intros (r & Hin & Heq).
  apply N.eqb_eq in Heq. subst. now apply in_map.
Qed.

(** What a successful multi-row insert leaves behind. *)
Lemma insert_sale_items_ok uid ts d rows d' :
  insert_sale_items uid ts d = ok rows d' ->
  rows = rows_from (uuid_gen d) ts
  /\ sale_items d' = sale_items d ++ rows
  /\ sale_number_seq d' = sale_number_seq d
  /\ (uuid_gen d <= uuid_gen d')%N
  /\ map as_inserted (sales d') = map as_inserted (sales d)
  /\ (forall k,
        products d' !! k
        = (fun r => products.set_stock_quantity
                      (products.stock_quantity r - sold k rows) r)
            <$> products d !! k)
  /\ Forall (fun t =>
               In (sale_items.t_sale_id t) (map sales.id (sales d))
               /\ exists p, products d !! sale_items.t_product_id t = Some p
                            /\ sale_items.t_quantity t
                               <= products.stock_quantity p) ts.
Proof.
  unfold insert_sale_items.
  destruct (insert_sale_item_rows ts d) as [e|[rows0 d1]] eqn:Hrows;
    [discriminate|].
  intros [= <- <-].
  apply insert_sale_item_rows_ok in Hrows. destruct Hrows as (Hr & Hd & Hall).
  destruct (after_rows_frame uid rows0 d1) as (Hi & Hq & Hu & Hs).
  cbn in Hi, Hq, Hu, Hs. rewrite Hi, Hq, Hs.
  split; [exact Hr|]. subst d1. cbn in *.
  repeat split; try lia.
  - intros k. rewrite after_rows_products. reflexivity.
  - eapply Forall_impl; [exact Hall|]. cbn.
    intros t [Hsale Hp]. split; [|exact Hp].
    now apply existsb_sale_id.
Qed.

Lemma insert_sale_items_ok_wf uid ts d rows d' :
  db_wf d ->
  insert_sale_items uid ts d = ok rows d' ->
  db_wf d'
  /\ sales d' = sales d
  /\ exists news,
       audit_logs d' = audit_logs d ++ news
       /\ map audit_key news
          = flat_map (fun NEW =>
                        [(audit_logs.INSERT, audit_logs.t_sale_items,
                          sale_items.id NEW);
                         (audit_logs.UPDATE, audit_logs.t_products,
                          sale_items.product_id NEW)]) rows.
Proof.
  intros (Hws & Hwi & Hpk) Hok.
  pose proof (insert_sale_items_ok _ _ _ _ _ Hok)
    as (Hr & Hi & Hq & Hu & Hs & Hp & Hall).
  unfold insert_sale_items in Hok.
  destruct (insert_sale_item_rows ts d) as [e|[rows0 d1]] eqn:Hrows;
    [discriminate|].
  injection Hok as <- <-.
  apply insert_sale_item_rows_ok in Hrows. destruct Hrows as (_ & Hd & _).
  destruct (rows_from_columns ts (uuid_gen d)) as (Hc1 & Hc2 & Hc3).
  rewrite <- Hr in Hc1, Hc2, Hc3.
  destruct (after_rows_log uid rows0 d1) as (Hsame & news & Hn & Hk).
  { subst d1. exact Hpk. }
  { subst d1. cbn. rewrite List.Forall_forall. intros it Hit. split.
    - rewrite List.Forall_forall. intros r Hin Heq.
      rewrite List.Forall_forall in Hc3. specialize (Hc3 _ Hit).
      rewrite List.Forall_forall in Hws.
      specialize (Hws (sales.id r) (in_map _ _ _ Hin)). lia.
    - assert (Hpid : In (sale_items.product_id it)
                        (map sale_items.t_product_id ts)).
      { rewrite <- Hc2. now apply in_map. }
      apply in_map_iff in Hpid. destruct Hpid as (t & Ht & Hin).
      rewrite List.Forall_forall in Hall. destruct (Hall _ Hin) as (_ & p & Hp' & _).
      rewrite <- Ht. eauto. }
  cbn in Hsame, Hn. 
  assert (Hsales : sales (fold_left
                     (fun acc NEW => after_insert_sale_item uid NEW acc)
                     rows0 d1) = sales d).
  { rewrite Hsame. subst d1. reflexivity. }
  split; [|split; [exact Hsales|]].
  - repeat split.
    + rewrite Hsales. eapply Forall_impl; [exact Hws|]. cbn. intros; lia.
    + rewrite Hi, map_app, Forall_app. split.
      * eapply Forall_impl; [exact Hwi|]. cbn. intros; lia.
      * rewrite Hc1. rewrite List.Forall_forall. intros i Hin.
        apply in_map_iff in Hin. destruct Hin as (t & <- & Hin).
        rewrite List.Forall_forall in Hall. destruct (Hall _ Hin) as (Hsale & _).
        rewrite List.Forall_forall in Hws. specialize (Hws _ Hsale). lia.
    + intros k r Hk'. rewrite Hp in Hk'.
      destruct (products d !! k) as [r0|] eqn:E; [|discriminate].
      injection Hk' as <-. cbn. exact (Hpk _ _ E).
  - exists news. split; [|exact Hk].
    rewrite Hn. subst d1. reflexivity.
Qed.

Lemma with_inserted_sale_wf uid r d :
  db_wf d -> sales.id r = uuid_gen d -> db_wf (with_inserted_sale uid r d).
Proof.
  intros (Hs & Hi & Hpk) Hid. repeat split; cbn.
  - rewrite map_app, Forall_app. split.
    + eapply Forall_impl; [exact Hs|]. cbn. intros; lia.
    + constructor; [lia|constructor].
  - eapply Forall_impl; [exact Hi|]. cbn. intros; lia.
  - exact Hpk.
Qed.

Lemma find_sale_last (l : list sales.row) (r : sales.row) :
  Forall (fun i => (i < sales.id r)%N) (map sales.id l) ->
  List.find (fun x => N.eqb (sales.id x) (sales.id r)) (l ++ [r]) = Some r.
Proof.
  induction l as [|x l IH]; cbn; intros H.
  - now rewrite N.eqb_refl.
  - inversion H as [|? ? Hx Hl]; subst.
    destruct (N.eqb_spec (sales.id x) (sales.id r)); [lia|]. now apply IH.
Qed.

Lemma find_sale_some (i : uuid) (l : list sales.row) :
  In i (map sales.id l) ->
  exists r, List.find (fun x => N.eqb (sales.id x) i) l = Some r.
Proof.
  induction l as [|x l IH]; cbn; [tauto|].
  intros [Hx|Hin].
  - subst. rewrite N.eqb_refl. eauto.
  - destruct (N.eqb (sales.id x) i); eauto.
Qed.

(** *** The three requests *)

(** A failed submission either failed on the sale, and only the sequence
    moved, or failed on the items, and the sale stays in. *)
Lemma submitSale_raised uid t lines d e d' :
  sales.t_sale_number t = None ->
  Sales.submitSale uid t lines d = raised e d' ->
  ((e = not_null_violation \/ e = unique_violation)
   /\ d' = with_sale_number_seq (sale_number_seq d + 1) d)
  \/ ((exists p q a, e = insufficient_stock p q a) \/ e = foreign_key_violation)
     /\ exists cashier,
          sales.t_cashier_id t = Some cashier
          /\ d' = with_inserted_sale uid (inserted_sale t cashier d) d.
Proof.
  intros Hnone. unfold Sales.submitSale.
  rewrite (insert_sale_generated uid t d Hnone).
  destruct (sales.t_cashier_id t) as [cashier|];
    [|intros [= <- <-]; left; auto].
  destruct (existsb _ _); [intros [= <- <-]; left; auto|].
  set (r := inserted_sale t cashier d).
  set (d1 := with_inserted_sale uid r d).
  destruct (insert_sale_items uid (lines (sales.id r)) d1)
    as [rows d2|e2 d2] eqn:Hitems.
  - apply insert_sale_items_ok in Hitems.
    destruct Hitems as (_ & _ & _ & _ & Hs & _).
    apply as_inserted_columns in Hs. destruct Hs as (Hids & _).
    destruct (find_sale_some (sales.id r) (sales d2)) as [r' Hr'].
    { rewrite Hids. cbn. rewrite map_app. apply in_or_app. right. now left. }
    rewrite Hr'. discriminate.
  - unfold insert_sale_items in Hitems.
    destruct (insert_sale_item_rows _ d1) as [e3|[rows0 d3]] eqn:Hrows;
      [|discriminate].
    injection Hitems as <- <-.
    intros [= <- <-]. right. split; [|eauto].
    eapply insert_sale_item_rows_err. exact Hrows.
Qed.

(** A successful submission on a well-formed database. *)
Lemma submitSale_ok uid t lines d r d' :
  db_wf d ->
  sales.t_sale_number t = None ->
  Sales.submitSale uid t lines d = ok r d' ->
  exists cashier rows,
    sales.t_cashier_id t = Some cashier
    /\ r = inserted_sale t cashier d
    /\ insert_sale_items uid (lines (uuid_gen d))
         (with_inserted_sale uid r d) = ok rows d'
    /\ db_wf d'
    /\ sales d' = sales d ++ [r]
    /\ exists news,
         audit_logs d' = audit_logs d ++ sale_entry uid r :: news
         /\ map audit_key news
            = flat_map (fun NEW =>
                          [(audit_logs.INSERT, audit_logs.t_sale_items,
                            sale_items.id NEW);
                           (audit_logs.UPDATE, audit_logs.t_products,
                            sale_items.product_id NEW)]) rows.
Proof.
  intros Hwf Hnone. unfold Sales.submitSale.
  rewrite (insert_sale_generated uid t d Hnone).
  destruct (sales.t_cashier_id t) as [cashier|]; [|discriminate].
  destruct (existsb _ _); [discriminate|].
  set (r0 := inserted_sale t cashier d).
  assert (Hwf1 : db_wf (with_inserted_sale uid r0 d))
    by (apply with_inserted_sale_wf; [exact Hwf|reflexivity]).
  destruct (insert_sale_items uid (lines (sales.id r0)) _)
    as [rows d2|e2 d2] eqn:Hitems; [|discriminate].
  destruct (insert_sale_items_ok_wf _ _ _ _ _ Hwf1 Hitems)
    as (Hwf2 & Hs & news & Hn & Hk).
  rewrite Hs. cbn [sales with_inserted_sale with_audit_logs with_sales].
  rewrite find_sale_last by (destruct Hwf as (Hw & _); exact Hw).
  intros [= <- <-].
  exists cashier, rows.
  split; [reflexivity|]. split; [reflexivity|]. split; [exact Hitems|].
  split; [exact Hwf2|]. split; [exact Hs|].
  exists news. split; [|exact Hk].
  rewrite Hn. cbn. rewrite <- app_assoc. reflexivity.
Qed.

(** *** [processSale], case by case *)

Lemma processSale_cases st d out st' d' :
  Sales.processSale st d = (out, st', d') ->
  (d' = d /\ st' = st
   /\ (out = inl Sales.CartIsEmpty \/ out = inl Sales.TotalCannotBeNegative
       \/ out = inl Sales.InsufficientPaymentAmount))
  \/ (Sales.cart st <> [] /\ (0 <= Sales.calculateTotal st)%Q
      /\ Sales.cart st' = match out with inl _ => Sales.cart st | inr _ => [] end
      /\ match Sales.submitSale (Some (Sales.user st)) (Sales.saleTuple st)
                 (fun saleId => Sales.saleItems saleId st) d with
         | raised e d2 => out = inl (Sales.ErrorProcessingSale e) /\ d' = d2
         | ok r d2 =>
             out = inr (Sales.mkCompleteSale r
                          (Sales.itemsOfSale (sales.id r) d2)
                          (Sales.calculateTaxAmount st)
                          (Sales.calculateChangeDue st) (Sales.amountPaid st))
             /\ d' = d2
         end).
Proof.
  unfold Sales.processSale.
  destruct (Sales.cart st) as [|item c] eqn:Hcart.
  { intros [= <- <- <-]. left. auto. }
  destruct (Qltb (Sales.calculateTotal st) 0) eqn:Hneg.
  { intros [= <- <- <-]. left. auto. }
  apply Qltb_false_iff in Hneg.
  destruct (negb _ && _ && _).
  { intros [= <- <- <-]. left. auto. }
  destruct (Sales.submitSale _ _ _ d) as [r d2|e d2];
    intros [= <- <- <-]; right; (split; [discriminate|]);
    (split; [exact Hneg|]); (split; [|split; reflexivity]).
  - reflexivity.
  - destruct (_ && _); cbn; now rewrite ?Hcart.
Qed.

Lemma saleItems_sale_id (i : uuid) (st : Sales.State) :
  Forall (fun t => sale_items.t_sale_id t = i) (Sales.saleItems i st).
Proof.
  unfold Sales.saleItems. induction (Sales.cart st); constructor; auto.
Qed.

Lemma itemsOfSale_new (i : uuid) (old rows : list sale_items.row) (d : db) :
  sale_items d = old ++ rows ->
  Forall (fun j => (j < i)%N) (map sale_items.sale_id old) ->
  Forall (fun j => j = i) (map sale_items.sale_id rows) ->
  Sales.itemsOfSale i d = rows.
Proof.
  intros Hd Hold Hnew. unfold Sales.itemsOfSale.
  rewrite Hd, List.filter_app. clear Hd.
  assert (H1 : List.filter (fun it => N.eqb (sale_items.sale_id it) i) old = []).
  { clear Hnew. induction old as [|x old IH]; cbn in *; [reflexivity|].
    inversion Hold as [|? ? Hx Hl]; subst.
    destruct (N.eqb_spec (sale_items.sale_id x) i); [lia|]. now apply IH. }
  assert (H2 : List.filter (fun it => N.eqb (sale_items.sale_id it) i) rows
               = rows).
  { clear Hold H1. induction rows as [|x rows IH]; cbn in *; [reflexivity|].
    inversion Hnew as [|? ? Hx Hl]; subst.
    rewrite N.eqb_refl. f_equal. now apply IH. }
  now rewrite H1, H2.
Qed.

(** The committed sale, on a well-formed database: the row is the one
    inserted, its items are the rows of the cart, and the log gained the
    entry of the sale and two per item. *)
Lemma processSale_committed st d cs st' d' :
  db_wf d ->
  Sales.processSale st d = (inr cs, st', d') ->
  exists cashier,
    Sales.sale cs = inserted_sale (Sales.saleTuple st) cashier d
    /\ Sales.tax_amount cs = Sales.calculateTaxAmount st
    /\ (0 <= Sales.calculateTotal st)%Q
    /\ db_wf d'
    /\ sales d' = sales d ++ [Sales.sale cs]
    /\ Sales.sale_items cs
       = rows_from (uuid_gen d + 1) (Sales.saleItems (uuid_gen d) st)
    /\ exists news,
         audit_logs d'
         = audit_logs d ++ sale_entry (Some (Sales.user st)) (Sales.sale cs)
                        :: news
         /\ map audit_key news
            = flat_map (fun NEW =>
                          [(audit_logs.INSERT, audit_logs.t_sale_items,
                            sale_items.id NEW);
                           (audit_logs.UPDATE, audit_logs.t_products,
                            sale_items.product_id NEW)]) (Sales.sale_items cs).
Proof.
  intros Hwf H. apply processSale_cases in H.
  destruct H as [(_ & _ & [H|[H|H]])|(_ & Hpos & _ & H)]; try discriminate.
  destruct (Sales.submitSale _ _ _ d) as [r d2|e d2] eqn:Hsub;
    destruct H as [Hout ->]; [|discriminate].
  injection Hout as ->.
  destruct (submitSale_ok _ (Sales.saleTuple st) _ _ _ _ Hwf eq_refl Hsub)
    as (cashier & rows & _ & Hr & Hitems & Hwf2 & Hs & news & Hn & Hk).
  pose proof (insert_sale_items_ok _ _ _ _ _ Hitems) as (Hrows & Hi & _).
  assert (Hof : Sales.itemsOfSale (sales.id r) d2 = rows).
  { apply (itemsOfSale_new _ (sale_items d)).
    - exact Hi.
    - destruct Hwf as (_ & Hw & _). rewrite Hr. exact Hw.
    - rewrite Hrows.
      destruct (rows_from_columns (Sales.saleItems (uuid_gen d) st)
                  (uuid_gen (with_inserted_sale (Some (Sales.user st)) r d)))
        as (Hc & _).
      rewrite Hc, Hr. cbn.
      apply List.Forall_map. exact (saleItems_sale_id (uuid_gen d) st). }
  exists cashier. cbn [Sales.sale Sales.tax_amount Sales.sale_items].
  rewrite Hof.
  split; [exact Hr|]. split; [reflexivity|]. split; [exact Hpos|].
  split; [exact Hwf2|]. split; [exact Hs|]. split; [exact Hrows|].
  exists news. split; [exact Hn|exact Hk].
Qed.

(** ** The sale transaction *)

Lemma fresh_db_wf catalog first_uuid :
  catalog_ok catalog -> db_wf (fresh_db catalog first_uuid).
Proof.
  intros Hc. repeat split; cbn; try constructor.
  intros k r Hk. now destruct (Hc k r Hk).
Qed.

Lemma shop_ok : catalog_ok shop.
Proof.
  intros k r. unfold shop.
  rewrite lookup_insert_Some. intros [[<- <-]|[_ H]]; [cbn; lia|].
  rewrite lookup_insert_Some in H. destruct H as [[<- <-]|[_ H]]; [cbn; lia|].
  rewrite lookup_empty in H. discriminate.
Qed.

Lemma shop_db_wf : db_wf shop_db.
Proof. apply fresh_db_wf, shop_ok. Qed.




(** A rejected sale: nothing was written, or the sale insert failed and
    only the sequence moved, or the items were refused and the sale stays
    in. *)
Lemma processSale_rejected st d alert st' d' :
  Sales.processSale st d = (inl alert, st', d') ->
  match alert with
  | Sales.ErrorProcessingSale e =>
      ((e = not_null_violation \/ e = unique_violation)
       /\ d' = with_sale_number_seq (sale_number_seq d + 1) d)
      \/ (((exists p q a, e = insufficient_stock p q a)
           \/ e = foreign_key_violation)
          /\ exists cashier,
               d' = with_inserted_sale (Some (Sales.user st))
                      (inserted_sale (Sales.saleTuple st) cashier d) d)
  | _ => d' = d
  end.
Proof.
  intros H. apply processSale_cases in H.
  destruct H as [(-> & _ & [H|[H|H]])|(_ & _ & _ & H)];
    try (injection H as ->; reflexivity).
  destruct (Sales.submitSale _ _ _ d) as [r d2|e d2] eqn:Hsub;
    destruct H as [Hout ->]; [discriminate|].
  injection Hout as ->.
  apply submitSale_raised in Hsub; [|reflexivity].
  destruct Hsub as [Hsale|(He & cashier & _ & Hd)]; [left; exact Hsale|].
  right. split; [exact He|]. exists cashier. exact Hd.
Qed.










(** ** Reachable states *)

(** *** The cart holds one line per product *)

Lemma find_none_not_in (pid : uuid) (c : list Sales.CartItem) :
  List.find (Sales.sameProduct pid) c = None -> ~ In pid (cart_ids c).
Proof.
  induction c as [|item c IH]; cbn; [tauto|].
  unfold Sales.sameProduct at 1.
  destruct (N.eqb_spec (Sales.id (Sales.product item)) pid); [discriminate|].
  intros H [Heq|Hin]; [congruence|]. now apply IH.
Qed.

Lemma cart_ids_requantified (pid : uuid) (f : Sales.CartItem -> Z)
    (c : list Sales.CartItem) :
  cart_ids (map (fun item => if Sales.sameProduct pid item
                             then Sales.withQuantity (f item) item
                             else item) c)
  = cart_ids c.
Proof.
  unfold cart_ids. rewrite map_map. apply map_ext. intros item.
  destruct (Sales.sameProduct pid item); reflexivity.
Qed.

Lemma NoDup_filter_ids (keep : Sales.CartItem -> bool)
    (c : list Sales.CartItem) :
  List.NoDup (cart_ids c) -> List.NoDup (cart_ids (List.filter keep c)).
Proof.
  induction c as [|item c IH]; cbn; [auto|].
  intros H. inversion H as [|? ? Hnin Hnd]; subst.
  destruct (keep item); cbn; [|auto].
  constructor; [|auto].
  intros Hin. apply Hnin. unfold cart_ids in *.
  apply in_map_iff in Hin. destruct Hin as (x & Hx & Hin).
  apply List.filter_In in Hin. destruct Hin as [Hin _].
  rewrite <- Hx.
  exact (in_map (fun i => Sales.id (Sales.product i)) c x Hin).
Qed.

Lemma addToCart_ids p st :
  List.NoDup (cart_ids (Sales.cart st)) ->
  List.NoDup (cart_ids (Sales.cart (Sales.addToCart p st))).
Proof.
  intros H. unfold Sales.addToCart.
  destruct (List.find _ _) as [existing|] eqn:Hfind.
  - destruct (_ <? _); [|exact H]. cbn.
    now rewrite (cart_ids_requantified (Sales.id p)
                   (fun item => Sales.quantity item + 1)).
  - cbn. unfold cart_ids. rewrite map_app. cbn.
    apply find_none_not_in in Hfind.
    apply List.NoDup_app; [exact H|repeat constructor; cbn; tauto|].
    intros x Hx [<-|[]]. exact (Hfind Hx).
Qed.

Lemma updateCartItemQuantity_ids pid q st :
  List.NoDup (cart_ids (Sales.cart st)) ->
  List.NoDup (cart_ids (Sales.cart (Sales.updateCartItemQuantity pid q st))).
Proof.
  intros H. unfold Sales.updateCartItemQuantity, Sales.removeFromCart.
  destruct (q <=? 0); [now apply NoDup_filter_ids|].
  destruct (match List.find _ _ with Some p => _ | None => false end);
    [exact H|].
  cbn. now rewrite (cart_ids_requantified pid (fun _ => q)).
Qed.

(** *** What a cart sells of a product *)


Lemma in_cart_without (k : uuid) (c : list Sales.CartItem) :
  ~ In k (cart_ids c) -> in_cart k c = 0.
Proof.
  induction c as [|item c IH]; cbn; [reflexivity|].
  intros H. unfold Sales.sameProduct at 1.
  destruct (N.eqb_spec (Sales.id (Sales.product item)) k); [tauto|].
  fold (in_cart k c). rewrite IH; tauto.
Qed.


(** *** The stock after a committed sale *)


(** *** The stock invariant *)




Lemma act_db_wf (a : Action) (st : Sales.State) (d : db) :
  db_wf d -> db_wf (act a st d).2.
Proof.
  intros Hwf. destruct a; cbn; try exact Hwf.
  - destruct (Sales.products st !! listed); exact Hwf.
  - destruct (Sales.processSale st d) as [[out st'] d'] eqn:H.
    cbn. destruct out as [alert|cs].
    + apply processSale_rejected in H.
      destruct alert as [| | |e]; try (subst d'; exact Hwf).
      destruct H as [(_ & ->)|(_ & cashier & ->)]; [exact Hwf|].
      apply with_inserted_sale_wf; [exact Hwf|reflexivity].
    + destruct (processSale_committed _ _ _ _ _ Hwf H)
        as (_ & _ & _ & _ & H' & _).
      exact H'.
Qed.

Lemma reachable_db_wf (w : World) : reachable w -> db_wf (database w).
Proof.
  induction 1 as [catalog first_uuid sessions Hc|till a w _ IH].
  - now apply fresh_db_wf.
  - unfold run. destruct (tills w !! till) as [st|]; [|exact IH].
    pose proof (act_db_wf a st (database w) IH) as H.
    destruct (act a st (database w)). exact H.
Qed.


Lemma closing_reachable : reachable closing.
Proof.
  unfold closing. do 2 apply reachable_run.
  cbn [Nat.iter]. do 7 apply reachable_run.
  exact (reachable_start shop 100 [(7%N, Some 7%N); (8%N, Some 8%N)] shop_ok).
Defined.


(** ** Sale numbers *)

(** *** Decimal text *)











(** *** Reading a sale number back *)








(** *** The numbers of the committed sales *)

Lemma submitSale_numbers uid t lines d r d' :
  sales.t_sale_number t = None ->
  Sales.submitSale uid t lines d = ok r d' ->
  map sales.sale_number (sales d')
  = map sales.sale_number (sales d)
    ++ [format_sale_number (sale_number_seq d + 1)]
  /\ sale_number_seq d' = (sale_number_seq d + 1)%N.
Proof.
  intros Hnone. unfold Sales.submitSale.
  rewrite (insert_sale_generated uid t d Hnone).
  destruct (sales.t_cashier_id t) as [cashier|]; [|discriminate].
  destruct (existsb _ _); [discriminate|].
  destruct (insert_sale_items _ _ _) as [rows d2|e d2] eqn:Hitems;
    [|discriminate].
  destruct (List.find _ _); [|discriminate]. intros [= _ <-].
  apply insert_sale_items_ok in Hitems.
  destruct Hitems as (_ & _ & Hq & _ & Hs & _).
  apply as_inserted_columns in Hs. destruct Hs as (_ & Hnum & _).
  rewrite Hnum, Hq. cbn. rewrite map_app. split; reflexivity.
Qed.

Lemma StronglySorted_snoc (ns : list N) (m : N) :
  StronglySorted N.lt ns -> Forall (fun n => (n < m)%N) ns ->
  StronglySorted N.lt (ns ++ [m]).
Proof.
  induction 1 as [|n ns Hs IH Hn]; cbn; intros Hall.
  - repeat constructor.
  - inversion Hall as [|? ? Hlt Hall']; subst. constructor; [now apply IH|].
    rewrite Forall_app. split; [exact Hn|]. now repeat constructor.
Qed.

Lemma numbers_inv_seq (d : db) (s : N) :
  (sale_number_seq d <= s)%N -> numbers_inv d ->
  numbers_inv (with_sale_number_seq s d).
Proof.
  intros Hs (ns & Hmap & Hsorted & Hall). exists ns. cbn.
  repeat split; auto. eapply Forall_impl; [exact Hall|]. cbn. intros; lia.
Qed.

Lemma numbers_inv_next (d d' : db) :
  map sales.sale_number (sales d')
  = map sales.sale_number (sales d)
    ++ [format_sale_number (sale_number_seq d + 1)] ->
  sale_number_seq d' = (sale_number_seq d + 1)%N ->
  numbers_inv d -> numbers_inv d'.
Proof.
  intros Hmap' Hseq (ns & Hmap & Hsorted & Hall).
  exists (ns ++ [sale_number_seq d + 1])%N. rewrite Hmap', Hmap, Hseq.
  split; [now rewrite map_app|]. split.
  - apply StronglySorted_snoc; [exact Hsorted|].
    eapply Forall_impl; [exact Hall|]. cbn. intros; lia.
  - rewrite Forall_app. split.
    + eapply Forall_impl; [exact Hall|]. cbn. intros; lia.
    + repeat constructor; lia.
Qed.

Lemma act_numbers_inv (a : Action) (st : Sales.State) (d : db) :
  numbers_inv d -> numbers_inv (act a st d).2.
Proof.
  intros Hinv. destruct a; cbn; try exact Hinv.
  - destruct (Sales.products st !! listed); exact Hinv.
  - destruct (Sales.processSale st d) as [[out st'] d'] eqn:H.
    cbn. destruct out as [alert|cs].
    + apply processSale_rejected in H.
      destruct alert as [| | |e]; try (subst d'; exact Hinv).
      destruct H as [(_ & ->)|(_ & cashier & ->)].
      * apply numbers_inv_seq; [lia|exact Hinv].
      * eapply numbers_inv_next; [| |exact Hinv]; cbn;
          [now rewrite map_app|reflexivity].
    + apply processSale_cases in H.
      destruct H as [(_ & _ & [H|[H|H]])|(_ & _ & _ & H)]; try discriminate.
      destruct (Sales.submitSale _ _ _ _) as [r d2|e d2] eqn:Hsub;
        destruct H as [Hout ->]; [|discriminate].
      destruct (submitSale_numbers _ (Sales.saleTuple st) _ _ _ _
                  eq_refl Hsub) as [Hmap Hseq].
      exact (numbers_inv_next _ _ Hmap Hseq Hinv).
Qed.

Lemma reachable_numbers_inv (w : World) :
  reachable w -> numbers_inv (database w).
Proof.
  induction 1 as [catalog first_uuid sessions Hc|till a w _ IH].
  - exists []. cbn. repeat constructor.
  - unfold run. destruct (tills w !! till) as [st|]; [|exact IH].
    pose proof (act_numbers_inv a st (database w) IH) as H.
    destruct (act a st (database w)). exact H.
Qed.


(** The first migration's generator numbers the next sale alike. *)
Example generate_sale_number_next :
  generate_sale_number shop_db = Some "BD-000001"%string
  /\ generate_sale_number after_sale = Some "BD-000002"%string.
Proof. vm_compute. split; reflexivity. Qed.




(** ** The cart handlers *)

Lemma filter_other_lines (k : uuid) (c : list Sales.CartItem) :
  ~ In k (cart_ids c) ->
  List.filter (fun item => negb (Sales.sameProduct k item)) c = c.
Proof.
  induction c as [|item c IH]; cbn; [reflexivity|].
  intros H. unfold Sales.sameProduct at 1.
  destruct (N.eqb_spec (Sales.id (Sales.product item)) k); [tauto|].
  cbn. rewrite IH; tauto.
Qed.

(** X1: Removing a product that was just added to a cart that did not hold
    it gives the state back. *)
Theorem addToCart_removeFromCart (p : Sales.Product) (st : Sales.State) :
  line_of (Sales.id p) (Sales.cart st) = None ->
  Sales.removeFromCart (Sales.id p) (Sales.addToCart p st) = st.
Proof.
  unfold line_of. intros Hnone.
  unfold Sales.addToCart. rewrite Hnone.
  unfold Sales.removeFromCart. cbn.
  rewrite List.filter_app. cbn.
  unfold Sales.sameProduct at 2. cbn. rewrite N.eqb_refl. cbn.
  rewrite app_nil_r, filter_other_lines by now apply find_none_not_in.
  now destruct st.
Qed.

Lemma addToCart_removeFromCart_witness :
  line_of 1%N (Sales.cart till) = None
  /\ Sales.removeFromCart 1%N (Sales.addToCart listed_sneaker till) = till.
Proof.
  split; [reflexivity|].
  apply (addToCart_removeFromCart listed_sneaker till). reflexivity.
Defined.

Lemma in_cart_line (k : uuid) (c : list Sales.CartItem) :
  List.NoDup (cart_ids c) ->
  in_cart k c = from_option Sales.quantity 0 (line_of k c).
Proof.
  unfold line_of.
  induction c as [|item c IH]; cbn; [reflexivity|].
  intros Hnd. inversion Hnd as [|? ? Hnin Hnd']; subst.
  fold (in_cart k c).
  destruct (Sales.sameProduct k item) eqn:Hs; cbn.
  - apply N.eqb_eq in Hs.
    rewrite in_cart_without by (rewrite <- Hs; exact Hnin). lia.
  - rewrite IH by exact Hnd'. lia.
Qed.

Lemma line_of_map (k : uuid) (g : Sales.CartItem -> Sales.CartItem)
    (c : list Sales.CartItem) :
  (forall item, Sales.id (Sales.product (g item))
                = Sales.id (Sales.product item)) ->
  line_of k (map g c) = g <$> line_of k c.
Proof.
  intros Hg. unfold line_of.
  induction c as [|item c IH]; cbn; [reflexivity|].
  unfold Sales.sameProduct at 1 3. rewrite Hg.
  destruct (_ =? _)%N; [reflexivity|exact IH].
Qed.

Lemma line_of_id (k : uuid) (c : list Sales.CartItem) (line : Sales.CartItem) :
  line_of k c = Some line -> Sales.id (Sales.product line) = k.
Proof.
  unfold line_of. intros H. apply List.find_some in H.
  destruct H as [_ H]. now apply N.eqb_eq in H.
Qed.

Lemma in_cart_app (k : uuid) (a b : list Sales.CartItem) :
  in_cart k (a ++ b) = in_cart k a + in_cart k b.
Proof.
  induction a as [|item a IH]; cbn; [reflexivity|].
  fold (in_cart k (a ++ b)) (in_cart k a). rewrite IH. lia.
Qed.

(** X2: With one line per product in the cart, [addToCart] changes the
    quantity of the clicked product only: a product new to the cart gets
    one unit whatever its stock, a product in the cart gets one more unit
    while its quantity is below the stock the clicked card shows. *)
Theorem addToCart_in_cart (p : Sales.Product) (st : Sales.State) (k : uuid) :
  List.NoDup (cart_ids (Sales.cart st)) ->
  in_cart k (Sales.cart (Sales.addToCart p st))
  = if N.eqb k (Sales.id p) then
      match line_of (Sales.id p) (Sales.cart st) with
      | None => 1
      | Some line =>
          if Sales.quantity line <? Sales.stock_quantity p
          then Sales.quantity line + 1 else Sales.quantity line
      end
    else in_cart k (Sales.cart st).
Proof.
  intros Hnd.
  pose proof (addToCart_ids p st Hnd) as Hnd'.
  unfold Sales.addToCart in *. fold (line_of (Sales.id p) (Sales.cart st)) in *.
  destruct (line_of (Sales.id p) (Sales.cart st)) as [line|] eqn:Hline.
  - destruct (Sales.quantity line <? Sales.stock_quantity p) eqn:Hlt.
    + unfold Sales.setCart in *. cbn [Sales.cart] in *.
      rewrite (in_cart_line _ _ Hnd').
      rewrite line_of_map
        by (intros item; now destruct (Sales.sameProduct _ item)).
      destruct (N.eqb_spec k (Sales.id p)) as [->|Hne].
      * rewrite Hline. cbn.
        unfold Sales.sameProduct. rewrite (line_of_id _ _ _ Hline).
        rewrite N.eqb_refl. reflexivity.
      * rewrite (in_cart_line _ _ Hnd).
        destruct (line_of k (Sales.cart st)) as [other|] eqn:Hother;
          [|reflexivity].
        cbn. unfold Sales.sameProduct.
        rewrite (line_of_id _ _ _ Hother).
        destruct (N.eqb_spec k (Sales.id p)); [contradiction|reflexivity].
    + destruct (N.eqb_spec k (Sales.id p)) as [->|Hne]; [|reflexivity].
      rewrite (in_cart_line _ _ Hnd). now rewrite Hline.
  - unfold Sales.setCart. cbn [Sales.cart]. rewrite in_cart_app.
    cbn. unfold Sales.sameProduct. cbn.
    rewrite (N.eqb_sym (Sales.id p) k).
    destruct (N.eqb_spec k (Sales.id p)) as [->|Hne]; [|lia].
    rewrite in_cart_without by now apply find_none_not_in. lia.
Qed.

Lemma five_in_cart_lines : List.NoDup (cart_ids (Sales.cart five_in_cart)).
Proof. vm_compute. repeat constructor. cbn. tauto. Qed.

Lemma addToCart_in_cart_witness :
  List.NoDup (cart_ids (Sales.cart five_in_cart))
  /\ in_cart 1%N (Sales.cart (Sales.addToCart listed_sneaker five_in_cart)) = 5.
Proof.
  split; [exact five_in_cart_lines|].
  rewrite (addToCart_in_cart listed_sneaker five_in_cart 1%N five_in_cart_lines).
  reflexivity.
Defined.

(** X3: [updateCartItemQuantity] with a positive quantity that the listed
    stock covers sets the quantity of that product's line and prices the
    line by the piece; the other lines keep their quantity, and a product
    without a line gets none.  A product that the list of the till does
    not hold is not checked against any stock. *)
Theorem updateCartItemQuantity_in_cart (productId : uuid) (q : Z)
    (st : Sales.State) (k : uuid) :
  List.NoDup (cart_ids (Sales.cart st)) ->
  0 < q ->
  (forall p, List.find (fun p => N.eqb (Sales.id p) productId)
                       (Sales.products st) = Some p ->
             q <= Sales.stock_quantity p) ->
  in_cart k (Sales.cart (Sales.updateCartItemQuantity productId q st))
  = (if N.eqb k productId && bool_decide (is_Some (line_of k (Sales.cart st)))
     then q else in_cart k (Sales.cart st))
  /\ forall line,
       line_of productId
         (Sales.cart (Sales.updateCartItemQuantity productId q st)) = Some line ->
       Sales.quantity line = q
       /\ Sales.total_price line = (inject_Z q * Sales.unit_price line)%Q.
Proof.
  intros Hnd Hq Hstock.
  pose proof (updateCartItemQuantity_ids productId q st Hnd) as Hnd'.
  assert (Hcart :
    Sales.cart (Sales.updateCartItemQuantity productId q st)
    = map (fun item => if Sales.sameProduct productId item
                       then Sales.withQuantity q item else item)
          (Sales.cart st)).
  { unfold Sales.updateCartItemQuantity.
    destruct (Z.leb_spec q 0) as [|_]; [lia|].
    destruct (List.find _ (Sales.products st)) as [p|]; [|reflexivity].
    specialize (Hstock p eq_refl).
    destruct (Z.gtb_spec q (Sales.stock_quantity p)) as [|_]; [lia|].
    reflexivity. }
  rewrite Hcart in *. clear Hcart.
  assert (Hline : forall j,
    line_of j (map (fun item => if Sales.sameProduct productId item
                                then Sales.withQuantity q item else item)
                   (Sales.cart st))
    = (fun item => if Sales.sameProduct productId item
                   then Sales.withQuantity q item else item)
        <$> line_of j (Sales.cart st)).
  { intros j. apply line_of_map.
    intros item. now destruct (Sales.sameProduct _ item). }
  split.
  - rewrite (in_cart_line _ _ Hnd'), (in_cart_line _ _ Hnd), Hline.
    destruct (line_of k (Sales.cart st)) as [line|] eqn:Hk; cbn;
      [|now rewrite andb_false_r].
    unfold Sales.sameProduct. rewrite (line_of_id _ _ _ Hk).
    rewrite andb_true_r. now destruct (k =? productId)%N.
  - intros line. rewrite Hline.
    destruct (line_of productId (Sales.cart st)) as [old|] eqn:Hold;
      [|discriminate].
    cbn. unfold Sales.sameProduct. rewrite (line_of_id _ _ _ Hold).
    rewrite N.eqb_refl. intros [= <-]. split; reflexivity.
Qed.

Lemma updateCartItemQuantity_in_cart_witness :
  in_cart 1%N (Sales.cart (Sales.updateCartItemQuantity 1%N 4 two_sneakers)) = 4.
Proof.
  assert (Hnd : List.NoDup (cart_ids (Sales.cart two_sneakers)))
    by (vm_compute; repeat constructor; cbn; tauto).
  assert (Hstock : forall p,
            List.find (fun p => N.eqb (Sales.id p) 1%N)
                      (Sales.products two_sneakers) = Some p ->
            4 <= Sales.stock_quantity p)
    by (vm_compute; intros p [= <-]; discriminate).
  destruct (updateCartItemQuantity_in_cart 1%N 4 two_sneakers 1%N
              Hnd eq_refl Hstock) as [H _].
  rewrite H. reflexivity.
Defined.

Lemma in_cart_filter (k pid : uuid) (c : list Sales.CartItem) :
  in_cart k (List.filter (fun item => negb (Sales.sameProduct pid item)) c)
  = if N.eqb k pid then 0 else in_cart k c.
Proof.
  unfold in_cart.
  induction c as [|item c IH]; cbn [List.filter fold_right];
    [now destruct (k =? pid)%N|].
  destruct (Sales.sameProduct pid item) eqn:Hp; cbn [negb fold_right];
    rewrite IH; destruct (N.eqb_spec k pid) as [->|Hne];
    rewrite ?Hp; try reflexivity.
  apply N.eqb_eq in Hp. unfold Sales.sameProduct. rewrite Hp.
  destruct (N.eqb_spec pid k); [congruence|]. lia.
Qed.

(** X4: [updateCartItemQuantity] with a quantity of zero or less takes the
    product out of the cart, whatever the stock, and leaves the other
    products as they are. *)
Theorem updateCartItemQuantity_removes (productId : uuid) (q : Z)
    (st : Sales.State) (k : uuid) :
  q <= 0 ->
  in_cart k (Sales.cart (Sales.updateCartItemQuantity productId q st))
  = (if N.eqb k productId then 0 else in_cart k (Sales.cart st))
  /\ line_of productId
       (Sales.cart (Sales.updateCartItemQuantity productId q st)) = None.
Proof.
  intros Hq. unfold Sales.updateCartItemQuantity.
  destruct (Z.leb_spec q 0) as [_|]; [|lia].
  unfold Sales.removeFromCart, Sales.setCart. cbn [Sales.cart].
  split; [apply in_cart_filter|].
  unfold line_of.
  induction (Sales.cart st) as [|item c IH]; cbn; [reflexivity|].
  destruct (Sales.sameProduct productId item) eqn:Hp; cbn; [exact IH|].
  now rewrite Hp.
Qed.

Lemma updateCartItemQuantity_removes_witness :
  in_cart 1%N (Sales.cart (Sales.updateCartItemQuantity 1%N 0 two_sneakers)) = 0.
Proof.
  destruct (updateCartItemQuantity_removes 1%N 0 two_sneakers 1%N) as [H _];
    [lia|].
  rewrite H. reflexivity.
Defined.

(** *** What the handlers keep of a till *)

Lemma processSale_till (st : Sales.State) (d : db) :
  let st' := (Sales.processSale st d).1.2 in
  (Sales.cart st' = Sales.cart st \/ Sales.cart st' = [])
  /\ Sales.taxRate st' = Sales.taxRate st
  /\ Sales.paymentMethod st' = Sales.paymentMethod st
  /\ Sales.discountType st' = Sales.discountType st
  /\ Sales.user st' = Sales.user st
  /\ Sales.profile st' = Sales.profile st.
Proof.
  unfold Sales.processSale.
  destruct (Sales.cart st) as [|item c] eqn:Hcart; cbn; [tauto|].
  destruct (Qltb _ 0); cbn; [rewrite Hcart; tauto|].
  destruct (_ && Qltb _ _); cbn; [rewrite Hcart; tauto|].
  destruct (Sales.submitSale _ _ _ d) as [r d'|e d']; cbn;
    destruct (Sales.isCash _ && Qeq_bool _ 0); cbn; rewrite ?Hcart; tauto.
Qed.

Lemma act_till_ok (a : Action) (st : Sales.State) (d : db) :
  till_ok st -> till_ok (act a st d).1.
Proof.
  intros [Hlines Htax]. unfold till_ok.
  destruct a as [listed|pid q|pid| |c|m|t|v|v| | |i now]; cbn;
    try (split; assumption).
  - destruct (Sales.products st !! listed) as [p|]; cbn; [|now split].
    unfold Sales.addToCart.
    destruct (List.find _ _) as [existing|]; [destruct (_ <? _)|]; cbn;
      try (split; assumption); split; try assumption.
    + apply List.Forall_map.
      eapply Forall_impl; [exact Hlines|]. intros item (Hq & Hu & Ht).
      destruct (Sales.sameProduct _ item); [|now split].
      split; [|split]; cbn; [lia|exact Hu|reflexivity].
    + apply Forall_app. split; [exact Hlines|].
      constructor; [|constructor].
      split; [|split]; cbn; [lia|reflexivity|ring].
  - unfold Sales.updateCartItemQuantity, Sales.removeFromCart.
    destruct (Z.leb_spec q 0) as [|Hq]; cbn.
    + split; [|assumption].
      apply List.Forall_forall. intros item Hin.
      apply List.filter_In in Hin. destruct Hin as [Hin _].
      exact (proj1 (List.Forall_forall _ _) Hlines item Hin).
    + destruct (match List.find _ _ with Some p => _ | None => false end);
        cbn; split; try assumption.
      apply List.Forall_map.
      eapply Forall_impl; [exact Hlines|]. intros item (Hq' & Hu & Ht).
      destruct (Sales.sameProduct _ item); [|now split].
      split; [|split]; cbn; [lia|exact Hu|reflexivity].
  - split; [|assumption].
    apply List.Forall_forall. intros item Hin.
    apply List.filter_In in Hin. destruct Hin as [Hin _].
    exact (proj1 (List.Forall_forall _ _) Hlines item Hin).
  - split; [constructor|assumption].
  - destruct (processSale_till st d) as ([Hc|Hc] & Ht & _);
      destruct (Sales.processSale st d) as [[out st'] d']; cbn in *;
      rewrite Hc, Ht; split; try assumption. constructor.
Qed.

Lemma reachable_till_ok (w : World) :
  reachable w -> Forall till_ok (tills w).
Proof.
  induction 1 as [catalog first_uuid sessions _|till a w _ IH]; cbn.
  - apply List.Forall_map. apply List.Forall_forall. intros s _.
    split; [constructor|reflexivity].
  - unfold run. destruct (tills w !! till) as [st|] eqn:Hst; [|exact IH].
    pose proof (act_till_ok a st (database w)
                  (Forall_lookup_1 _ _ _ _ IH Hst)) as Hok.
    destruct (act a st (database w)) as [st' d']. cbn in *.
    now apply Forall_insert.
Qed.

Lemma calculateSubtotal_sum (st : Sales.State) :
  (Sales.calculateSubtotal st == Qsum (map Sales.total_price (Sales.cart st)))%Q.
Proof.
  unfold Sales.calculateSubtotal.
  assert (H : forall l acc,
            (fold_left (fun sum item => sum + Sales.total_price item) l acc
             == acc + Qsum (map Sales.total_price l))%Q).
  { unfold Qsum.
    induction l as [|item l IH]; intros acc; cbn [fold_left map fold_right];
      [ring|].
    rewrite IH. ring. }
  rewrite H. ring.
Qed.

Lemma browsing_reachable : reachable browsing.
Proof.
  unfold browsing. cbn [Nat.iter].
  do 2 apply reachable_run.
  apply (reachable_start shop 100 [(7%N, Some 7%N); (8%N, Some 8%N)]).
  exact shop_ok.
Qed.

(** X5: In every state the system can reach, each line of each cart holds
    at least one unit at the price its product was listed with, and the
    subtotal is the sum over the lines of quantity times that price. *)
Theorem cart_lines_priced (w : World) (i : nat) (st : Sales.State) :
  reachable w ->
  tills w !! i = Some st ->
  Forall line_ok (Sales.cart st)
  /\ (Sales.calculateSubtotal st
      == Qsum (map (fun item =>
                      inject_Z (Sales.quantity item)
                      * Sales.selling_price (Sales.product item))
                   (Sales.cart st)))%Q.
Proof.
  intros Hw Hst.
  destruct (Forall_lookup_1 _ _ _ _ (reachable_till_ok w Hw) Hst)
    as [Hlines _].
  split; [exact Hlines|].
  rewrite calculateSubtotal_sum.
  unfold Qsum.
  induction Hlines as [|item c (_ & Hu & Ht) _ IH]; cbn [map fold_right];
    [reflexivity|].
  rewrite IH, Ht, Hu. reflexivity.
Qed.

Lemma cart_lines_priced_witness :
  (Sales.calculateSubtotal two_sneakers == inject_Z 2 * 100 + 0)%Q.
Proof.
  destruct (cart_lines_priced browsing 0 two_sneakers browsing_reachable
              eq_refl) as [_ H].
  exact H.
Defined.



(** ** [processSale]: the checks before the requests *)

Lemma Qltb_true_iff (a b : Q) : Qltb a b = true <-> (a < b)%Q.
Proof.
  unfold Qltb. rewrite negb_true_iff, <- not_true_iff_false, Qle_bool_iff.
  split; [apply Qnot_le_lt|apply Qlt_not_le].
Qed.

(** X7: [processSale] alerts [CartIsEmpty] exactly on an empty cart,
    [TotalCannotBeNegative] exactly on a cart with a negative total, and
    [InsufficientPaymentAmount] exactly on a cash sale with an amount
    entered, other than zero, that is below the total; after each of these
    alerts the till and the database are as before. *)
Theorem processSale_guards (st : Sales.State) (d : db) :
  let out := (Sales.processSale st d).1.1 in
  (out = inl Sales.CartIsEmpty <-> Sales.cart st = [])
  /\ (out = inl Sales.TotalCannotBeNegative
      <-> Sales.cart st <> [] /\ (Sales.calculateTotal st < 0)%Q)
  /\ (out = inl Sales.InsufficientPaymentAmount
      <-> Sales.cart st <> [] /\ (0 <= Sales.calculateTotal st)%Q
          /\ Sales.paymentMethod st = cash
          /\ ~ (Sales.amountPaid st == 0)%Q
          /\ (Sales.amountPaid st < Sales.calculateTotal st)%Q)
  /\ forall a, out = inl a -> guard_alert a = true ->
               Sales.processSale st d = (inl a, st, d).
Proof.
  assert (Hfin : forall (out : Sales.Alert + Sales.CompleteSale) st' d',
            (forall a, out = inl a -> guard_alert a = true ->
                       st' = st /\ d' = d) ->
            forall a, out = inl a -> guard_alert a = true ->
                      (out, st', d') = (inl a, st, d)).
  { intros out st' d' H a -> Hg. destruct (H a eq_refl Hg) as [-> ->].
    reflexivity. }
  unfold Sales.processSale.
  destruct (Sales.cart st) as [|item c] eqn:Hcart.
  { cbn. split; [tauto|]. split; [split; [discriminate|tauto]|].
    split; [split; [discriminate|tauto]|]. now intros a [= <-]. }
  assert (Hne : item :: c <> []) by discriminate.
  destruct (Qltb (Sales.calculateTotal st) 0) eqn:Hneg.
  { apply Qltb_true_iff in Hneg. cbn.
    split; [split; discriminate|]. split; [tauto|].
    split; [split; [discriminate|intros (_ & Hle & _); lra]|].
    now intros a [= <-]. }
  apply Qltb_false_iff in Hneg.
  destruct (negb (Sales.isCash (Sales.paymentMethod st)
                  && Qeq_bool (Sales.amountPaid st) 0)
            && Sales.isCash (Sales.paymentMethod st)
            && Qltb (Sales.amountPaid st) (Sales.calculateTotal st))
    eqn:Hpay.
  { apply andb_prop in Hpay. destruct Hpay as [Hpay Hlt].
    apply andb_prop in Hpay. destruct Hpay as [Hexact Hcash].
    rewrite Hcash in Hexact. cbn in Hexact.
    apply negb_true_iff, not_true_iff_false in Hexact.
    rewrite Qeq_bool_iff in Hexact. apply Qltb_true_iff in Hlt.
    assert (Hm : Sales.paymentMethod st = cash)
      by (destruct (Sales.paymentMethod st); try discriminate; reflexivity).
    cbn. split; [split; discriminate|].
    split; [split; [discriminate|intros [_ Hlt']; lra]|].
    split; [tauto|]. now intros a [= <-]. }
  assert (Hpaid : ~ (Sales.cart st <> [] /\ (0 <= Sales.calculateTotal st)%Q
                    /\ Sales.paymentMethod st = cash
                    /\ ~ (Sales.amountPaid st == 0)%Q
                    /\ (Sales.amountPaid st < Sales.calculateTotal st)%Q)).
  { intros (_ & _ & Hm & Hnz & Hlt). rewrite Hm in Hpay. cbn in Hpay.
    apply Qltb_true_iff in Hlt. rewrite Hlt, !andb_true_r in Hpay.
    apply negb_false_iff, Qeq_bool_iff in Hpay. contradiction. }
  rewrite Hcart in Hpaid.
  destruct (Sales.submitSale _ _ _ d) as [r d'|e d']; cbn;
    (split; [split; [discriminate|intros Hc; congruence]|]);
    (split; [split; [discriminate|intros [_ Hlt']; lra]|]);
    (split; [split; [discriminate|tauto]|]);
    intros a [= <-]; discriminate.
Qed.

(** ** [processSale]: the receipt and the till after a sale *)

Lemma processSale_receipt st d cs st' d' :
  Sales.processSale st d = (inr cs, st', d') ->
  (negb (Sales.isCash (Sales.paymentMethod st)
         && Qeq_bool (Sales.amountPaid st) 0)
   && Sales.isCash (Sales.paymentMethod st)
   && Qltb (Sales.amountPaid st) (Sales.calculateTotal st)) = false
  /\ Sales.tax_amount cs = Sales.calculateTaxAmount st
  /\ Sales.change_due cs = Sales.calculateChangeDue st
  /\ Sales.amount_paid cs = Sales.amountPaid st
  /\ st' = Sales.mkState (Sales.user st) (Sales.profile st)
             (Sales.fetchProducts d') [] None (Sales.paymentMethod st)
             (Sales.discountType st) 0 (Sales.taxRate st) 0.
Proof.
  unfold Sales.processSale.
  destruct (Sales.cart st); [discriminate|].
  destruct (Qltb _ 0); [discriminate|].
  destruct (_ && Qltb _ _); [discriminate|].
  destruct (Sales.submitSale _ _ _ d) as [r d2|e d2]; [|discriminate].
  intros [= <- <- <-]. cbn.
  repeat split; destruct (Sales.isCash _ && Qeq_bool _ 0); reflexivity.
Qed.



(** X9: A committed sale resets the till: the cart is emptied, the
    customer, the discount value and the amount paid are cleared and the
    product list is read again, while the payment method, the discount
    type and the tax rate stay as they were selected. *)
Theorem committed_sale_resets_till (st : Sales.State) (d : db)
    (cs : Sales.CompleteSale) (st' : Sales.State) (d' : db) :
  Sales.processSale st d = (inr cs, st', d') ->
  st' = Sales.mkState (Sales.user st) (Sales.profile st)
          (Sales.fetchProducts d') [] None (Sales.paymentMethod st)
          (Sales.discountType st) 0 (Sales.taxRate st) 0.
Proof.
  intros Hsale. now destruct (processSale_receipt st d cs st' d' Hsale)
    as (_ & _ & _ & _ & ->).
Qed.

Lemma committed_sale_resets_till_witness :
  exists cs st' d',
    Sales.processSale ten_percent_off shop_db = (inr cs, st', d')
    /\ st' = Sales.mkState 7%N (Some 7%N) (Sales.fetchProducts d') [] None
               cash percentage 0 (75 # 1000) 0.
Proof.
  eexists _, _, _. split; [vm_compute; reflexivity|].
  eapply (committed_sale_resets_till ten_percent_off shop_db).
  vm_compute. reflexivity.
Defined.





(** ** Sale numbers, continued *)

Lemma existsb_sale_number (s : string) (l : list sales.row) :
  existsb (fun r => String.eqb (sales.sale_number r) s) l = true
  <-> In s (map sales.sale_number l).
Proof.
  rewrite existsb_exists, in_map_iff.
  split; intros (r & H1 & H2); exists r.
  - apply String.eqb_eq in H2. now split.
  - split; [exact H2|]. now apply String.eqb_eq.
Qed.

Lemma with_sale_number_seq_same (d : db) :
  with_sale_number_seq (sale_number_seq d) d = d.
Proof. now destruct d. Qed.

(** X12: A sale inserted with a sale number of its own keeps that number
    and takes none from the sequence; when the number is in use the insert
    is refused and the database is as before. *)
Theorem insert_sale_supplied_number (auth_uid : option uuid) (t : sales.tuple)
    (d : db) (s : string) (cashier : uuid) :
  sales.t_sale_number t = Some s ->
  s <> ""%string ->
  sales.t_cashier_id t = Some cashier ->
  (In s (map sales.sale_number (sales d)) ->
   insert_sale auth_uid t d = raised unique_violation d)
  /\ (~ In s (map sales.sale_number (sales d)) ->
      exists r d',
        insert_sale auth_uid t d = ok r d'
        /\ sales.sale_number r = s
        /\ sales d' = sales d ++ [r]
        /\ sale_number_seq d' = sale_number_seq d).
Proof.
  intros Hs Hne Hc. unfold insert_sale, set_sale_number. cbn.
  rewrite Hs. apply String.eqb_neq in Hne. rewrite Hne, Hs, Hc. cbn.
  destruct (existsb _ (sales d)) eqn:Hex.
  - split; [intros _|intros Hnin; exfalso; apply Hnin;
                     now apply existsb_sale_number].
    unfold rollback. cbn. now rewrite with_sale_number_seq_same.
  - split; [intros Hin; apply existsb_sale_number in Hin; congruence|].
    intros _. eexists _, _. split; [reflexivity|]. cbn. auto.
Qed.

Lemma insert_sale_supplied_number_witness :
  insert_sale (Some 7%N) numbered after_sale = raised unique_violation after_sale.
Proof.
  apply (proj1 (insert_sale_supplied_number (Some 7%N) numbered after_sale
                  "BD-000001" 7%N eq_refl ltac:(discriminate) eq_refl)).
  vm_compute. tauto.
Defined.

Lemma length_string_of_list_ascii (l : list ascii) :
  String.length (string_of_list_ascii l) = length l.
Proof. induction l as [|c l IH]; cbn; [reflexivity|now rewrite IH]. Qed.

Lemma length_concat_replicate {A} (k : nat) (fill : list A) :
  length (concat (replicate k fill)) = (k * length fill)%nat.
Proof.
  induction k as [|k IH]; cbn; [reflexivity|].
  rewrite length_app, IH. reflexivity.
Qed.

Lemma lpad_list_length (s : list ascii) (len : nat) (fill : list ascii) :
  fill <> [] -> length (Pg.lpad_list s len fill) = len.
Proof.
  intros Hfill. unfold Pg.lpad_list.
  destruct (Nat.leb_spec len (length s)).
  - rewrite length_take. lia.
  - rewrite length_app, length_take, length_concat_replicate.
    destruct fill; [contradiction|]. cbn [length]. nia.
Qed.

Lemma format_sale_number_shape (n : N) :
  format_sale_number n
  = String "B" (String "D" (String "-" (Pg.lpad (Pg.text n) 6 "0"))).
Proof. reflexivity. Qed.

Lemma format_sale_number_like_BD (n : N) :
  Pg.like_BD (format_sale_number n) = true.
Proof.
  rewrite format_sale_number_shape. unfold Pg.like_BD.
  generalize (Pg.lpad (Pg.text n) 6 "0"). intros s. cbn. now destruct s.
Qed.

(** X13: Whatever the counter value, also beyond 999999, the sale number
    has nine characters and starts with BD-: [LPAD] pads a short number
    and cuts a long one to six characters. *)
Theorem sale_number_width (n : N) :
  String.length (format_sale_number n) = 9%nat
  /\ Pg.like_BD (format_sale_number n) = true.
Proof.
  split; [|apply format_sale_number_like_BD].
  rewrite format_sale_number_shape. unfold Pg.lpad.
  cbn [String.length]. rewrite length_string_of_list_ascii.
  rewrite lpad_list_length by discriminate. reflexivity.
Qed.





(** ** Alerts, continued *)

Lemma with_low_stock_alerts_same (d : db) :
  with_low_stock_alerts (low_stock_alerts d) d = d.
Proof. now destruct d. Qed.

Lemma acknowledge_other_alerts (alertId : uuid) (now : timestamptz)
    (l : list low_stock_alerts.row) :
  ~ In alertId (map low_stock_alerts.id l) ->
  map (fun a =>
         if N.eqb (low_stock_alerts.id a) alertId then
           low_stock_alerts.mk
             (low_stock_alerts.id a) (low_stock_alerts.product_id a)
             (low_stock_alerts.current_stock a)
             (low_stock_alerts.threshold a)
             true (low_stock_alerts.acknowledged_by a) (Some now)
         else a) l = l.
Proof.
  induction l as [|x l IH]; cbn; [reflexivity|].
  intros Hnin.
  destruct (N.eqb_spec (low_stock_alerts.id x) alertId); [tauto|].
  rewrite IH; tauto.
Qed.

(** X15: Acknowledging an alert that does not exist changes nothing. *)
Theorem acknowledgeAlert_unknown (alertId : uuid) (now : timestamptz) (d : db) :
  ~ In alertId (map low_stock_alerts.id (low_stock_alerts d)) ->
  acknowledgeAlert alertId now d = d.
Proof.
  intros Hnin. unfold acknowledgeAlert, update_alert_acknowledged.
  rewrite acknowledge_other_alerts by exact Hnin.
  apply with_low_stock_alerts_same.
Qed.

Lemma acknowledgeAlert_unknown_witness :
  acknowledgeAlert 999 5 after_sale = after_sale.
Proof.
  apply (acknowledgeAlert_unknown 999 5 after_sale).
  vm_compute. intros [H|[]]. discriminate.
Defined.

(** X16: With alert ids unique, acknowledging an alert takes one off the
    count of unacknowledged alerts when the alert was unacknowledged and
    leaves the count when it was acknowledged already. *)
Theorem unacknowledgedCount_acknowledge (alertId : uuid) (now : timestamptz)
    (d : db) (a : low_stock_alerts.row) :
  List.NoDup (map low_stock_alerts.id (low_stock_alerts d)) ->
  In a (low_stock_alerts d) ->
  low_stock_alerts.id a = alertId ->
  (unacknowledgedCount (fetchAlerts (acknowledgeAlert alertId now d))
   + (if low_stock_alerts.is_acknowledged a then 0 else 1)
   = unacknowledgedCount (fetchAlerts d))%nat.
Proof.
  unfold acknowledgeAlert, update_alert_acknowledged, fetchAlerts,
    unacknowledgedCount. cbn [low_stock_alerts with_low_stock_alerts].
  intros Hnd Hin <-.
  induction (low_stock_alerts d) as [|x l IH]; [contradiction|].
  cbn [map] in Hnd. inversion Hnd as [|? ? Hx Hl]; subst.
  cbn [map List.filter].
  destruct Hin as [->|Hin].
  - rewrite N.eqb_refl. cbn [low_stock_alerts.is_acknowledged negb].
    rewrite acknowledge_other_alerts by exact Hx.
    destruct (low_stock_alerts.is_acknowledged a); cbn; lia.
  - specialize (IH Hl Hin).
    destruct (N.eqb_spec (low_stock_alerts.id x) (low_stock_alerts.id a))
      as [Heq|Hne].
    + exfalso. apply Hx. rewrite Heq.
      now apply (in_map low_stock_alerts.id).
    + destruct (low_stock_alerts.is_acknowledged x); cbn [negb length];
        lia.
Qed.

Lemma unacknowledgedCount_acknowledge_witness :
  (unacknowledgedCount (fetchAlerts (acknowledgeAlert 102 5 after_sale)) + 1
   = unacknowledgedCount (fetchAlerts after_sale))%nat.
Proof.
  apply (unacknowledgedCount_acknowledge 102 5 after_sale
           (low_stock_alerts.mk 102 1 3 10 false None None)).
  - vm_compute. repeat constructor. cbn. tauto.
  - vm_compute. now left.
  - reflexivity.
Defined.

(** ** The product list *)

Lemma In_table (m : gmap uuid products.row) (r : products.row) :
  In r (snd <$> map_to_list m) <-> exists k, m !! k = Some r.
Proof.
  rewrite <- list_elem_of_In, list_elem_of_fmap. split.
  - intros ([k r'] & -> & Hin). exists k. now apply elem_of_map_to_list.
  - intros (k & Hk). exists (k, r). split; [reflexivity|].
    now apply elem_of_map_to_list.
Qed.

Lemma NoDup_map_filter {A B} (f : A -> B) (keep : A -> bool) (l : list A) :
  List.NoDup (map f l) -> List.NoDup (map f (List.filter keep l)).
Proof.
  induction l as [|x l IH]; cbn; [auto|].
  intros H. inversion H as [|? ? Hnin Hnd]; subst.
  destruct (keep x); cbn; [|auto].
  constructor; [|auto].
  intros Hin. apply Hnin.
  apply in_map_iff in Hin. destruct Hin as (y & Hy & Hin).
  apply List.filter_In in Hin. destruct Hin as [Hin _].
  rewrite <- Hy. now apply in_map.
Qed.

(** X17: In a table that stores every product under its id,
    [fetchProducts] lists exactly the active products with stock above
    zero, each once, with the name, price and stock of the table. *)
Theorem fetchProducts_lists (d : db) (p : Sales.Product) :
  (forall k r, products d !! k = Some r -> products.id r = k) ->
  (In p (Sales.fetchProducts d)
   <-> exists r,
         products d !! Sales.id p = Some r
         /\ products.is_active r = true
         /\ 0 < products.stock_quantity r
         /\ p = Sales.mkProduct (products.id r) (products.name r)
                  (products.selling_price r) (products.stock_quantity r))
  /\ List.NoDup (map Sales.id (Sales.fetchProducts d)).
Proof.
  intros Hkeys. unfold Sales.fetchProducts. split.
  - rewrite in_map_iff. split.
    + intros (r & <- & Hin). apply List.filter_In in Hin.
      destruct Hin as [Hin Hkeep]. apply In_table in Hin.
      destruct Hin as (k & Hk). apply andb_prop in Hkeep.
      destruct Hkeep as [Hact Hpos]. exists r. cbn.
      rewrite (Hkeys k r Hk). repeat split; try assumption. lia.
    + intros (r & Hr & Hact & Hpos & ->). exists r. split; [reflexivity|].
      apply List.filter_In. split; [apply In_table; eauto|].
      rewrite Hact. cbn. lia.
  - rewrite map_map. cbn. apply NoDup_map_filter.
    assert (Hids : map products.id (snd <$> map_to_list (products d))
                   = fst <$> map_to_list (products d)).
    { assert (Hall : forall k r, In (k, r) (map_to_list (products d)) ->
                                 products.id r = k).
      { intros k r Hin. apply Hkeys.
        apply elem_of_map_to_list. now apply list_elem_of_In. }
      induction (map_to_list (products d)) as [|[k r] l IH];
        [reflexivity|].
      cbn. rewrite (Hall k r) by now left.
      f_equal. apply IH. intros k' r' Hin. apply Hall. now right. }
    change (List.NoDup (map products.id (snd <$> map_to_list (products d)))).
    rewrite Hids. apply NoDup_ListNoDup, NoDup_fst_map_to_list.
Qed.

Lemma fetchProducts_lists_witness :
  In listed_sneaker (Sales.fetchProducts shop_db).
Proof.
  apply (proj1 (fetchProducts_lists shop_db listed_sneaker
                  (proj2 (proj2 shop_db_wf)))).
  exists sneaker. repeat split.
Defined.

(** ** The insert of sale items, line by line *)





(** ** Low stock alerts, continued *)



(** ** What no statement takes away *)

Lemma grows_refl uid d : grows uid d d.
Proof. grows_parts; try grows_nil. lia. Qed.

Lemma grows_trans uid d1 d2 d3 :
  grows uid d1 d2 -> grows uid d2 d3 -> grows uid d1 d3.
Proof.
  intros ((n1 & Ha1 & Hu1) & (l1 & Hl1) & (s1 & Hs1) & (i1 & Hi1) & Hq1)
         ((n2 & Ha2 & Hu2) & (l2 & Hl2) & (s2 & Hs2) & (i2 & Hi2) & Hq2).
  grows_parts.
  - exists (n1 ++ n2). rewrite Ha2, Ha1, app_assoc. split; [reflexivity|].
    apply Forall_app; now split.
  - exists (l1 ++ l2). now rewrite Hl2, Hl1, app_assoc.
  - exists (s1 ++ s2). now rewrite Hs2, Hs1, app_assoc.
  - exists (i1 ++ i2). now rewrite Hi2, Hi1, app_assoc.
  - lia.
Qed.

Lemma grows_same uid d d' :
  audit_logs d' = audit_logs d ->
  low_stock_alerts d' = low_stock_alerts d ->
  sales d' = sales d ->
  sale_items d' = sale_items d ->
  (sale_number_seq d <= sale_number_seq d')%N ->
  grows uid d d'.
Proof.
  intros Ha Hl Hs Hi Hq. grows_parts; rewrite ?Ha, ?Hl, ?Hs, ?Hi;
    try grows_nil. exact Hq.
Qed.

Lemma create_audit_log_grows uid tbl ev d :
  grows uid d (create_audit_log uid tbl ev d).
Proof.
  unfold create_audit_log. grows_parts; cbn; try grows_nil; [|lia].
  eexists. split; [reflexivity|].
  constructor; [now destruct ev|constructor].
Qed.

Lemma check_low_stock_grows uid NEW d : grows uid d (check_low_stock NEW d).
Proof.
  destruct (check_low_stock_frame NEW d) as (_ & Hs & Hi & Ha & Hq & _).
  grows_parts; rewrite ?Ha, ?Hs, ?Hi; try grows_nil; [|lia].
  unfold check_low_stock.
  destruct (_ <=? _); [|grows_nil].
  destruct (existsb _ _); cbn.
  - exists []. rewrite app_nil_r, map_map. apply map_ext.
    intros a. now destruct (_ =? _)%N.
  - eexists. now rewrite map_app.
Qed.

Lemma update_products_grows uid pid set d :
  grows uid d (update_products uid pid set d).
Proof.
  unfold update_products.
  destruct (products d !! pid) as [OLD|]; [|apply grows_refl].
  eapply grows_trans; [|apply check_low_stock_grows].
  eapply grows_trans; [|apply create_audit_log_grows].
  now apply grows_same.
Qed.

Lemma sales_update_entries_user uid i set l :
  Forall (fun e => audit_logs.user_id e = uid)
         (sales_update_entries uid i set l).
Proof.
  unfold sales_update_entries.
  induction l as [|r l IH]; cbn; [constructor|].
  destruct (_ =? _)%N; cbn; [constructor; [reflexivity|exact IH]|exact IH].
Qed.

Lemma calculate_sale_totals_grows uid NEW d :
  grows uid d (calculate_sale_totals uid NEW d).
Proof.
  unfold calculate_sale_totals. rewrite update_sales_totals_eq.
  grows_parts; cbn; try grows_nil; [| |lia].
  - eexists. split; [reflexivity|apply sales_update_entries_user].
  - exists []. rewrite app_nil_r, map_map. apply map_ext.
    intros r. now destruct (_ =? _)%N.
Qed.

Lemma after_insert_sale_item_grows uid NEW d :
  grows uid d (after_insert_sale_item uid NEW d).
Proof.
  unfold after_insert_sale_item, update_product_stock.
  eapply grows_trans; [|apply update_products_grows].
  eapply grows_trans; [|apply calculate_sale_totals_grows].
  apply create_audit_log_grows.
Qed.

Lemma insert_sale_items_grows uid ts d :
  grows uid d
    match insert_sale_items uid ts d with ok _ d' | raised _ d' => d' end.
Proof.
  unfold insert_sale_items.
  destruct (insert_sale_item_rows ts d) as [e|[rows d1]] eqn:Hrows;
    [apply grows_refl|].
  destruct (insert_sale_item_rows_ok _ _ _ _ Hrows) as (_ & -> & _).
  eapply (grows_trans _ _
            (with_sale_items (sale_items d ++ rows)
               (with_uuid_gen (uuid_gen d + N.of_nat (length ts)) d))).
  - grows_parts; cbn; try grows_nil; [eauto|lia].
  - generalize (with_sale_items (sale_items d ++ rows)
                  (with_uuid_gen (uuid_gen d + N.of_nat (length ts)) d)).
    clear Hrows. induction rows as [|NEW rows IH]; intros d0; cbn;
      [apply grows_refl|].
    eapply grows_trans; [apply after_insert_sale_item_grows|apply IH].
Qed.

Lemma insert_sale_grows uid t d :
  grows uid d match insert_sale uid t d with ok _ d' | raised _ d' => d' end.
Proof.
  unfold insert_sale, set_sale_number, nextval, gen_random_uuid, rollback.
  destruct (sales.t_sale_number t) as [s|] eqn:Hs;
    [destruct (String.eqb s "") eqn:He|]; cbn; rewrite ?Hs; cbn;
    (destruct (sales.t_cashier_id t) as [cashier|];
     [destruct (existsb _ _)|]); cbn;
    try (apply grows_same; cbn; (reflexivity || lia));
    (eapply grows_trans; [|apply create_audit_log_grows]);
    (grows_parts; cbn; try grows_nil; [eexists; now rewrite map_app|lia]).
Qed.

Lemma submitSale_grows uid t lines d :
  grows uid d
    match Sales.submitSale uid t lines d with ok _ d' | raised _ d' => d' end.
Proof.
  unfold Sales.submitSale.
  pose proof (insert_sale_grows uid t d) as H1.
  destruct (insert_sale uid t d) as [saleData d1|e d1]; [|exact H1].
  pose proof (insert_sale_items_grows uid (lines (sales.id saleData)) d1)
    as H2.
  destruct (insert_sale_items uid _ d1) as [rows d2|e d2];
    [|exact (grows_trans _ _ _ _ H1 H2)].
  destruct (List.find _ (sales d2)); exact (grows_trans _ _ _ _ H1 H2).
Qed.

Lemma processSale_grows st d :
  grows (Some (Sales.user st)) d (Sales.processSale st d).2.
Proof.
  unfold Sales.processSale.
  destruct (Sales.cart st); [apply grows_refl|].
  destruct (Qltb _ 0); [apply grows_refl|].
  destruct (_ && Qltb _ _); [apply grows_refl|].
  pose proof (submitSale_grows (Some (Sales.user st)) (Sales.saleTuple st)
                (fun saleId => Sales.saleItems saleId st) d) as H.
  destruct (Sales.submitSale _ _ _ d); exact H.
Qed.

Lemma act_grows a st d : grows (Some (Sales.user st)) d (act a st d).2.
Proof.
  destruct a; cbn; try apply grows_refl.
  - destruct (Sales.products st !! listed); apply grows_refl.
  - pose proof (processSale_grows st d) as H.
    now destruct (Sales.processSale st d) as [[out st'] d'].
  - unfold acknowledgeAlert, update_alert_acknowledged.
    grows_parts; cbn; try grows_nil; [|lia].
    exists []. rewrite app_nil_r, map_map. apply map_ext.
    intros x. now destruct (_ =? _)%N.
Qed.

Lemma run_grows till a w st :
  tills w !! till = Some st ->
  grows (Some (Sales.user st)) (database w) (database (run till a w)).
Proof.
  intros Hst. unfold run. rewrite Hst.
  pose proof (act_grows a st (database w)) as H.
  now destruct (act a st (database w)) as [st' d'].
Qed.

(** X20: The audit log is only ever added to: whatever a till does, the
    entries the log held stay in place, and every entry that is added
    names the user of that till. *)
Theorem audit_log_append_only (till : nat) (a : Action) (w : World) :
  exists news,
    audit_logs (database (run till a w)) = audit_logs (database w) ++ news
    /\ Forall (fun e => audit_logs.user_id e = Sales.user <$> tills w !! till)
              news.
Proof.
  destruct (tills w !! till) as [st|] eqn:Hst.
  - destruct (run_grows till a w st Hst) as ((news & Hnews & Huser) & _).
    exists news. split; assumption.
  - exists []. unfold run. rewrite Hst, app_nil_r. split; [reflexivity|].
    constructor.
Qed.

(** X21: No handler of a till deletes an alert, a sale or a sale item:
    after any step the alerts that were there are there under the same
    ids, the sales that were there keep their id, number, customer,
    cashier, discount and payment method, the sale items are the same
    rows, all followed by what the step added, and the sequence of sale
    numbers has not gone back. *)
Theorem no_step_deletes (till : nat) (a : Action) (w : World) :
  (exists l, map low_stock_alerts.id (low_stock_alerts (database (run till a w)))
             = map low_stock_alerts.id (low_stock_alerts (database w)) ++ l)
  /\ (exists l, map as_inserted (sales (database (run till a w)))
                = map as_inserted (sales (database w)) ++ l)
  /\ (exists l, sale_items (database (run till a w))
                = sale_items (database w) ++ l)
  /\ (sale_number_seq (database w)
      <= sale_number_seq (database (run till a w)))%N.
Proof.
  destruct (tills w !! till) as [st|] eqn:Hst.
  - now destruct (run_grows till a w st Hst) as (_ & H).
  - unfold run. rewrite Hst.
    now destruct (grows_refl None (database w)) as (_ & H).
Qed.

(** ** The totals trigger *)

(** X22: [calculate_sale_totals] looks the sale up by the id of the sale
    item: when no sale has that id, as is the case for every item id that
    is generated after the ids of the sales, it changes nothing, whatever
    the items of the sale add up to. *)
Theorem calculate_sale_totals_by_item_id (auth_uid : option uuid)
    (NEW : sale_items.row) (d : db) :
  ~ In (sale_items.id NEW) (map sales.id (sales d)) ->
  calculate_sale_totals auth_uid NEW d = d.
Proof.
  intros Hnin. unfold calculate_sale_totals.
  apply update_sales_totals_miss.
  apply List.Forall_forall. intros r Hin Heq. apply Hnin.
  rewrite <- Heq. now apply (in_map sales.id).
Qed.

Lemma calculate_sale_totals_by_item_id_witness :
  calculate_sale_totals (Some 7%N)
    (sale_items.mk 101 100 1 2 100 200) after_sale = after_sale.
Proof.
  apply (calculate_sale_totals_by_item_id (Some 7%N)
           (sale_items.mk 101 100 1 2 100 200) after_sale).
  vm_compute. intros [H|[]]. discriminate.
Defined.

(** ** When a sale is committed *)




(** ** Sales and the sequence *)

Lemma sorted_between (ns : list N) : forall lo hi,
  StronglySorted N.lt ns ->
  Forall (fun n => (lo < n <= hi)%N) ns ->
  (N.of_nat (length ns) <= hi - lo)%N.
Proof.
  induction ns as [|n ns IH]; intros lo hi Hs Hb; cbn [length]; [lia|].
  inversion Hs as [|? ? Hs' Hn]; subst.
  inversion Hb as [|? ? Hn' Hb']; subst.
  assert (Hrest : Forall (fun m => (n < m <= hi)%N) ns).
  { apply List.Forall_forall. intros m Hm. split.
    - exact (proj1 (List.Forall_forall _ _) Hn m Hm).
    - exact (proj2 (proj1 (List.Forall_forall _ _) Hb' m Hm)). }
  specialize (IH n hi Hs' Hrest). lia.
Qed.

(** X24: In every state the system can reach there are at most as many
    sales as the sequence has handed out numbers: a sale that is refused
    leaves a gap in the numbers. *)
Theorem sales_within_sequence (w : World) :
  reachable w ->
  (N.of_nat (length (sales (database w))) <= sale_number_seq (database w))%N.
Proof.
  intros Hw.
  destruct (reachable_numbers_inv w Hw) as (ns & Hmap & Hsorted & Hbound).
  rewrite <- (length_map sales.sale_number), Hmap, length_map.
  assert (H : (N.of_nat (length ns) <= sale_number_seq (database w) - 0)%N).
  { apply sorted_between; [exact Hsorted|].
    eapply Forall_impl; [exact Hbound|]. cbn. intros; lia. }
  lia.
Qed.

Lemma sales_within_sequence_witness :
  (N.of_nat (length (sales (database closing)))
   <= sale_number_seq (database closing))%N.
Proof. exact (sales_within_sequence closing closing_reachable). Defined.

(** ** The first migrations' functions *)



(** X26: The audit function of the audit-logging migration and that of
    the quick-sale migration write the same entry for every row event, so
    the log does not depend on which of the two a trigger is bound to. *)
Theorem audit_functions_agree (auth_uid : option uuid)
    (TG_TABLE_NAME : audit_logs.tg_table_name) (ev : tg_event) (d : db) :
  audit_trigger_function auth_uid TG_TABLE_NAME ev d
  = create_audit_log auth_uid TG_TABLE_NAME ev d.
Proof. now destruct ev. Qed.

(** ** What a step does to the products *)






(** ** The alerts a sale raises *)












(** ** The discount columns of a sale *)


